(** * HuRIC XML to CoNLL 2009 conversion: a shallow embedding of
      [sesame/huric_to_conll.py] and the properties of its rows and files.

    Python values are modelled as follows.
    - [str] is [string]; a row (a Python list of [str]) is [list string].
    - a [dict] with string keys is a [gmap string _]; a dict built by a
      comprehension or a literal is built by inserting left to right, so a
      repeated key keeps its last value.
    - an [xml.etree.ElementTree.Element] is a tag, its attribute dict and the
      list of its children in document order.
    - a raised exception is the [Err] case of [result]; nothing in the module
      catches an exception, so the monad has no handler.
    - files are a map from path to content; whether [open(path, 'w')]
      succeeds is given by the environment, which names the exception that
      the call raises for a path that cannot be opened (its directory is
      missing, it is a directory, it may not be written).

    Listing the dataset directory, sorting the file names and parsing each
    file are outside the model: [huric_xml_to_conll] takes the parsed roots in
    the order in which the loop visits them. *)

From Stdlib Require Import Ascii.
From stdpp Require Import gmap strings list fin_maps sorting.

(** ** Exceptions and the error monad *)

Module Py.

(** The exceptions the module can raise: a failed dict lookup, a failed list
    index, the plain [Exception] raised by [get_fn_pos_by_rules], which
    carries its argument tuple, and the [OSError] (with its subclasses, such
    as [FileNotFoundError]) of a file that cannot be opened. *)
Inductive exn : Type :=
  | KeyError (key : string)
  | IndexError
  | Exception (args : list string)
  | OSError (args : list string).

Inductive result (A : Type) : Type :=
  | Ok (a : A)
  | Err (e : exn).
Arguments Ok {A} a.
Arguments Err {A} e.

Definition bind {A B : Type} (m : result A) (k : A → result B) : result B :=
  match m with
  | Ok a => k a
  | Err e => Err e
  end.

#[global] Instance result_ret : MRet result := @Ok.
#[global] Instance result_bind : MBind result := λ A B k m, bind m k.

Definition is_Ok {A : Type} (m : result A) : Prop := ∃ a, m = Ok a.
Definition is_Err {A : Type} (m : result A) : Prop := ∃ e, m = Err e.

(** [d[k]] on a dict. *)
Definition getitem {V : Type} (d : gmap string V) (k : string) : result V :=
  match d !! k with
  | Some v => Ok v
  | None => Err (KeyError k)
  end.

(** [l[i]] on a list, for a non-negative index. *)
Definition list_getitem {A : Type} (l : list A) (i : nat) : result A :=
  match l !! i with
  | Some x => Ok x
  | None => Err IndexError
  end.

(** A [for] loop whose body updates a state and may raise. *)
Fixpoint foldM {A S : Type} (body : S → A → result S) (s : S) (l : list A)
  : result S :=
  match l with
  | [] => Ok s
  | x :: l' => s' ← body s x; foldM body s' l'
  end.

(** A list comprehension [[f x for x in l]] whose element expression may
    raise. *)
Fixpoint comprehension {A B : Type} (f : A → result B) (l : list A)
  : result (list B) :=
  match l with
  | [] => Ok []
  | x :: l' => y ← f x; ys ← comprehension f l'; Ok (y :: ys)
  end.

(** [enumerate(l)]. *)
Definition enumerate {A : Type} (l : list A) : list (nat * A) :=
  imap (λ i x, (i, x)) l.

(** [sep.join(l)]. *)
Definition join (sep : string) (l : list string) : string :=
  String.concat sep l.

(** [defaultdict(lambda: dflt)[k]]: a missing key is inserted with the
    default before it is returned, so the lookup returns the dict too. *)
Definition defaultdict_getitem {V : Type} (dflt : V) (d : gmap string V)
    (k : string) : V * gmap string V :=
  match d !! k with
  | Some v => (v, d)
  | None => (dflt, <[k := dflt]> d)
  end.

End Py.
Import Py.

(** ** ElementTree elements *)

Module ET.

#[warnings="-register-all"]
Inductive Element : Type :=
  | Elem (tag : string) (attrib : gmap string string) (children : list Element).

Definition tag (e : Element) : string :=
  match e with Elem t _ _ => t end.
Definition attrib (e : Element) : gmap string string :=
  match e with Elem _ a _ => a end.
Definition children (e : Element) : list Element :=
  match e with Elem _ _ c => c end.

(** One step of a path: the children with the given tag, of every element of
    the current selection, in document order. *)
Definition child_step (t : string) (sel : list Element) : list Element :=
  e ← sel; filter (λ c, tag c = t) (children e).

(** [e.findall('t1/t2/...')], the path given as the list of its tags. *)
Definition findall (path : list string) (e : Element) : list Element :=
  foldl (λ sel t, child_step t sel) [e] path.

End ET.
Import ET.

(** ** The converter *)

Definition PATH_DATASETS : string := "data".
Definition PATH_CONLL : string := "data/neural".

(** A dict literal or comprehension: entries are inserted left to right. *)
Definition dict {V : Type} (entries : list (string * V)) : gmap string V :=
  foldl (λ d kv, <[kv.1 := kv.2]> d) ∅ entries.

(** The three name tables. Each function returns [mapping[name]] when
    [name in mapping] and [name] itself otherwise. *)
Definition frame_name_mapping : gmap string string :=
  dict [("Entering", "Arriving");
        ("Following", "Cotheme");
        ("Searching", "Scrutiny")].

Definition get_fn_frame_name (huric_name : string) : string :=
  let result := huric_name in
  match frame_name_mapping !! huric_name with
  | Some mapped => mapped
  | None => result
  end.

Definition lu_lemma_mapping : gmap string string :=
  dict [("halfcarri", "carry");
        ("positioning", "position");
        ("reconnoiter", "reconnoitre");
        ("half-l", "lead");
        ("be", "constitute");
        ("there", "constitute");
        ("along", "go");
        ("let", "go");
        ("up", "pick")].

Definition get_lu_lemma (lemma : string) : string :=
  let result := lemma in
  match lu_lemma_mapping !! lemma with
  | Some mapped => mapped
  | None => result
  end.

Definition fe_mapping : gmap string string :=
  dict [("Desired_state", "Desired_state_of_affairs");
        ("Reencoding", "Re-encoding")].

Definition get_fe_framenet (fe : string) : string :=
  let result := fe in
  match fe_mapping !! fe with
  | Some mapped => mapped
  | None => result
  end.

(** Rules for mapping HuRIC part of speech tags into FrameNet tags. *)
Definition noun_tags : list string := ["NN"; "NNP"; "NNS"].
Definition verb_tags : list string :=
  ["VB"; "VBD"; "VBG"; "VBN"; "VBP"; "VBZ"; "RP"; "EX"].
Definition rule_not_defined : string :=
  "Rule not defined for part-of-speech word".

Definition get_fn_pos_by_rules (pos : string) : result string :=
  if decide (pos = "JJ") then Ok "a"
  else if decide (pos ∈ noun_tags) then Ok "n"
  else if decide (pos ∈ verb_tags) then Ok "v"
  else Err (Exception [rule_not_defined; pos]).

(** The IOB prefix of the [count]-th token of a span of [len] tokens. *)
Definition iob_prefix (count len : nat) : string :=
  let prefix := if decide (count = 0) then "B" else "I" in
  if decide (len = 1) then "S" else prefix.

(** Body of the inner loop over [enumerate(element_tokens)]. *)
Definition label_token (len : nat) (fe_name : string)
    (fe_by_t_id : gmap string string) (ct : nat * Element)
  : result (gmap string string) :=
  let iob_label := iob_prefix ct.1 len +:+ "-" +:+ fe_name in
  id ← getitem (attrib ct.2) "id";
  Ok (<[id := iob_label]> fe_by_t_id).

(** Body of the loop over [frame.findall('frameElement')]. *)
Definition label_frame_element (fe_by_t_id : gmap string string)
    (frame_element : Element) : result (gmap string string) :=
  fe_name ← getitem (attrib frame_element) "type";
  let fe_name := get_fe_framenet fe_name in
  let element_tokens := findall ["token"] frame_element in
  foldM (label_token (length element_tokens) fe_name) fe_by_t_id
        (enumerate element_tokens).

(** One row of [conll_annotation]. The fields are evaluated left to right;
    the last one reads the defaultdict and may add the token id to it. *)
Definition conll_row (command_id : string)
    (deps_by_t_id : gmap string (gmap string string))
    (lus : list string) (frame_name : string)
    (fe_by_t_id : gmap string string) (t : gmap string string)
  : result (list string * gmap string string) :=
  id ← getitem t "id";
  surface ← getitem t "surface";
  lemma ← getitem t "lemma";
  pos ← getitem t "pos";
  dep ← getitem deps_by_t_id id;
  head ← getitem dep "from";
  deprel ← getitem dep "type";
  fillpred ← (if decide (id ∈ lus)
              then rule_pos ← get_fn_pos_by_rules pos;
                   Ok (get_lu_lemma lemma +:+ "." +:+ rule_pos)
              else Ok "_");
  let pred := if decide (id ∈ lus) then get_fn_frame_name frame_name
              else "_" in
  let '(apred, fe_by_t_id) := defaultdict_getitem "O" fe_by_t_id id in
  Ok ([id; surface; lemma; lemma; pos; pos; command_id; "_";
       head; head; deprel; deprel; fillpred; pred; apred], fe_by_t_id).

(** The list comprehension over [tokens]. *)
Fixpoint conll_annotation (command_id : string)
    (deps_by_t_id : gmap string (gmap string string))
    (lus : list string) (frame_name : string)
    (fe_by_t_id : gmap string string) (tokens : list (gmap string string))
  : result (list (list string)) :=
  match tokens with
  | [] => Ok []
  | t :: tokens' =>
      '(row, fe_by_t_id) ←
        conll_row command_id deps_by_t_id lus frame_name fe_by_t_id t;
      rows ← conll_annotation command_id deps_by_t_id lus frame_name
                              fe_by_t_id tokens';
      Ok (row :: rows)
  end.

(** Body of the loop over the frames of one document. *)
Definition frame_rows (command_id : string)
    (tokens : list (gmap string string))
    (deps_by_t_id : gmap string (gmap string string))
    (frame : Element) : result (list (list string)) :=
  frame_name ← getitem (attrib frame) "name";
  lus ← comprehension (λ lu, getitem (attrib lu) "id")
                      (findall ["lexicalUnit"; "token"] frame);
  fe_by_t_id ← foldM label_frame_element ∅ (findall ["frameElement"] frame);
  conll_annotation command_id deps_by_t_id lus frame_name fe_by_t_id tokens.

(** [{d.attrib['to']: d.attrib for d in root.findall('dependencies/dep')}] *)
Definition deps_of (root : Element)
  : result (gmap string (gmap string string)) :=
  foldM (λ deps d, to ← getitem (attrib d) "to"; Ok (<[to := attrib d]> deps))
        ∅ (findall ["dependencies"; "dep"] root).

(** Body of the loop over the files, from the parsed root on. *)
Definition convert_document (results : list (list (list string)))
    (root : Element) : result (list (list (list string))) :=
  command_id ← getitem (attrib root) "id";
  let tokens := attrib <$> findall ["tokens"; "token"] root in
  deps_by_t_id ← deps_of root;
  foldM (λ results frame,
           conll_annotation ← frame_rows command_id tokens deps_by_t_id frame;
           Ok (results ++ [conll_annotation]))
        results
        (findall ["semantics"; "frameSemantics"; "frame"] root).

Definition huric_xml_to_conll (roots : list Element)
  : result (list (list (list string))) :=
  foldM convert_document [] roots.

(** ** The writer *)

Definition tab : string := String "009"%char "".
Definition newline : string := String "010"%char "".

(** [f.write(data)] on a file opened for writing: the content grows. *)
Definition write (f data : string) : string := f +:+ data.

(** The body of both [.conll] blocks: every row of every sample on a line,
    and an empty line after each sample. *)
Definition write_conll (f : string) (samples : list (list (list string)))
  : string :=
  foldl (λ f seq,
           let f := foldl (λ f s, write f (join tab s +:+ newline)) f seq in
           write f newline)
        f samples.

(** The body of the [.sents] block. [w[1]] raises on a row with fewer than
    two fields; what was written before stays in the file. *)
Fixpoint write_sents (f : string) (samples : list (list (list string)))
  : string * result unit :=
  match samples with
  | [] => (f, Ok ())
  | seq :: samples' =>
      match comprehension (λ w, list_getitem w 1) seq with
      | Ok forms => write_sents (write f (join " " forms +:+ newline)) samples'
      | Err e => (f, Err e)
      end
  end.

Definition conll_file_loc (dataset_name mode : string) : string :=
  (PATH_CONLL +:+ "/" +:+ dataset_name) +:+ "/" +:+ dataset_name +:+ "."
    +:+ mode +:+ ".syntaxnet.conll".
Definition fulltext_file_loc (dataset_name : string) : string :=
  (PATH_CONLL +:+ "/" +:+ dataset_name) +:+ "/" +:+ dataset_name
    +:+ ".fulltext.train.syntaxnet.conll".
Definition sents_file_loc (dataset_name : string) : string :=
  (PATH_CONLL +:+ "/" +:+ dataset_name) +:+ "/" +:+ dataset_name
    +:+ ".fulltext.train.syntaxnet.conll.sents".

(** [write_conll_samples]. [open_error loc] is the exception that
    [open(loc, 'w')] raises, if it raises: the function creates no directory,
    so an [open] fails when the directory of the path is missing, and the
    exception ends the call with the file system as it is then. An [open]
    that succeeds creates or truncates the file, and its [with] block leaves
    at [loc] what its body wrote, also when the body raises. Which paths can
    be opened does not change during the call; a failure of [f.write] itself
    (a full disk) is not modelled. *)
Definition write_conll_samples (open_error : string → option exn)
    (samples : list (list (list string)))
    (dataset_name mode : string) (fs : gmap string string)
  : gmap string string * result unit :=
  match open_error (conll_file_loc dataset_name mode) with
  | Some e => (fs, Err e)
  | None =>
      let fs :=
        <[conll_file_loc dataset_name mode := write_conll "" samples]> fs in
      match open_error (fulltext_file_loc dataset_name) with
      | Some e => (fs, Err e)
      | None =>
          let fs :=
            <[fulltext_file_loc dataset_name := write_conll "" samples]> fs in
          match open_error (sents_file_loc dataset_name) with
          | Some e => (fs, Err e)
          | None =>
              let '(f, r) := write_sents "" samples in
              (<[sents_file_loc dataset_name := f]> fs, r)
          end
      end
  end.

(** ** Vocabulary of the statements *)

(** The keys of the three name tables. *)
Definition frame_name_keys : list string :=
  ["Entering"; "Following"; "Searching"].
Definition lu_lemma_keys : list string :=
  ["halfcarri"; "positioning"; "reconnoiter"; "half-l"; "be"; "there";
   "along"; "let"; "up"].
Definition fe_keys : list string := ["Desired_state"; "Reencoding"].

(** The tags for which [get_fn_pos_by_rules] has a rule. *)
Definition recognized_pos_tags : list string :=
  "JJ" :: noun_tags ++ verb_tags.

(** The documents and frames in the order in which the two nested loops of
    [huric_xml_to_conll] visit them. *)
Definition document_frames (roots : list Element) : list (Element * Element) :=
  root ← roots;
  frame ← findall ["semantics"; "frameSemantics"; "frame"] root;
  [(root, frame)].

(** The token dicts of a document, as the converter reads them. *)
Definition tokens_of (root : Element) : list (gmap string string) :=
  attrib <$> findall ["tokens"; "token"] root.

(** Number of newline characters of a file content, that is, of its lines
    when every line is terminated. *)
Fixpoint count_newlines (s : string) : nat :=
  match s with
  | EmptyString => 0
  | String c s' =>
      (if decide (c = "010"%char) then 1 else 0) + count_newlines s'
  end.

(** The last character of a string. *)
Fixpoint last_char (s : string) : option ascii :=
  match s with
  | EmptyString => None
  | String c EmptyString => Some c
  | String _ s' => last_char s'
  end.

(** The label a token id gets from the defaultdict. *)
Definition label_of (fe_by_t_id : gmap string string) (id : string) : string :=
  default "O" (fe_by_t_id !! id).

(** The row of a token, read off the token, the dependency map, the lexical
    unit ids, the frame name and the label map. *)
Definition row_of_token (command_id : string)
    (deps_by_t_id : gmap string (gmap string string))
    (lus : list string) (frame_name : string)
    (fe_by_t_id : gmap string string) (t : gmap string string)
    (row : list string) : Prop :=
  ∃ id surface lemma pos dep head deprel fillpred,
    t !! "id" = Some id ∧ t !! "surface" = Some surface ∧
    t !! "lemma" = Some lemma ∧ t !! "pos" = Some pos ∧
    deps_by_t_id !! id = Some dep ∧
    dep !! "from" = Some head ∧ dep !! "type" = Some deprel ∧
    (if decide (id ∈ lus)
     then ∃ rule_pos, get_fn_pos_by_rules pos = Ok rule_pos ∧
                      fillpred = get_lu_lemma lemma +:+ "." +:+ rule_pos
     else fillpred = "_") ∧
    row = [id; surface; lemma; lemma; pos; pos; command_id; "_";
           head; head; deprel; deprel; fillpred;
           if decide (id ∈ lus) then get_fn_frame_name frame_name else "_";
           label_of fe_by_t_id id].

(** The lexical unit ids of a frame, as the converter reads them. *)
Definition lus_of (frame : Element) : result (list string) :=
  comprehension (λ lu, getitem (attrib lu) "id")
                (findall ["lexicalUnit"; "token"] frame).

(** The label map of a frame, when the loop over its frame elements ends. *)
Definition labels_of (frame : Element) : result (gmap string string) :=
  foldM label_frame_element ∅ (findall ["frameElement"] frame).

(** [rows] is the row-set that the converter appends for [frame] of the
    document [root]. *)
Definition emitted (root frame : Element) (rows : list (list string)) : Prop :=
  ∃ command_id deps_by_t_id frame_name lus fe_by_t_id,
    attrib root !! "id" = Some command_id ∧
    deps_of root = Ok deps_by_t_id ∧
    attrib frame !! "name" = Some frame_name ∧
    lus_of frame = Ok lus ∧
    labels_of frame = Ok fe_by_t_id ∧
    Forall2 (row_of_token command_id deps_by_t_id lus frame_name fe_by_t_id)
            (tokens_of root) rows.

(** A file made of the given lines, each terminated by a newline. *)
Definition lines (ls : list string) : string :=
  foldr (λ l rest, l +:+ newline +:+ rest) "" ls.

(** The FORM column of a row. *)
Definition FORM (row : list string) : string := default "" (row !! 1).

(** A field or a line without a newline character in it. *)
Definition newline_free (s : string) : Prop := count_newlines s = 0.

(** ** Well-formed documents *)

(** A frame with a name, whose lexical unit tokens have an id and whose
    frame elements have a type and tokens with an id. *)
Definition well_formed_frame (frame : Element) : Prop :=
  is_Some (attrib frame !! "name") ∧
  (∀ lu, lu ∈ findall ["lexicalUnit"; "token"] frame →
         is_Some (attrib lu !! "id")) ∧
  (∀ el, el ∈ findall ["frameElement"] frame →
         is_Some (attrib el !! "type") ∧
         ∀ tk, tk ∈ findall ["token"] el → is_Some (attrib tk !! "id")).

(** A token with its four attributes and an incoming edge, whose tag has a
    rule when a frame of the document has it in its lexical unit. *)
Definition well_formed_token (root tk : Element) : Prop :=
  ∃ id pos,
    attrib tk !! "id" = Some id ∧
    is_Some (attrib tk !! "surface") ∧
    is_Some (attrib tk !! "lemma") ∧
    attrib tk !! "pos" = Some pos ∧
    (∃ d, d ∈ findall ["dependencies"; "dep"] root ∧
          attrib d !! "to" = Some id) ∧
    (∀ frame lu,
       frame ∈ findall ["semantics"; "frameSemantics"; "frame"] root →
       lu ∈ findall ["lexicalUnit"; "token"] frame →
       attrib lu !! "id" = Some id →
       pos ∈ recognized_pos_tags).

Definition well_formed_document (root : Element) : Prop :=
  is_Some (attrib root !! "id") ∧
  (∀ d, d ∈ findall ["dependencies"; "dep"] root →
        is_Some (attrib d !! "to") ∧ is_Some (attrib d !! "from") ∧
        is_Some (attrib d !! "type")) ∧
  (∀ frame, frame ∈ findall ["semantics"; "frameSemantics"; "frame"] root →
            well_formed_frame frame) ∧
  (∀ tk, tk ∈ findall ["tokens"; "token"] root → well_formed_token root tk).

(** ** Sample documents *)

Module Samples.

Definition token_elem (id surface lemma pos : string) : Element :=
  Elem "token"
       (dict [("id", id); ("surface", surface); ("lemma", lemma); ("pos", pos)])
       [].

Definition token_ref (id : string) : Element :=
  Elem "token" (dict [("id", id)]) [].

Definition dep_elem (from to type : string) : Element :=
  Elem "dep" (dict [("from", from); ("to", to); ("type", type)]) [].

Definition frame_element_elem (type : string) (ids : list string) : Element :=
  Elem "frameElement" (dict [("type", type)]) (token_ref <$> ids).

Definition frame_elem (name : string) (lus : list string)
    (frame_elements : list Element) : Element :=
  Elem "frame" (dict [("name", name)])
       (Elem "lexicalUnit" ∅ (token_ref <$> lus) :: frame_elements).

Definition command (id : string) (tokens deps frames : list Element)
  : Element :=
  Elem "command" (dict [("id", id)])
       [Elem "tokens" ∅ tokens;
        Elem "dependencies" ∅ deps;
        Elem "semantics" ∅ [Elem "frameSemantics" ∅ frames]].

(** "take the book to the living room" *)
Definition book_tokens : list Element :=
  [token_elem "1" "take" "take" "VB";
   token_elem "2" "the" "the" "DT";
   token_elem "3" "book" "book" "NN";
   token_elem "4" "to" "to" "TO";
   token_elem "5" "the" "the" "DT";
   token_elem "6" "living" "living" "NN";
   token_elem "7" "room" "room" "NN"].

Definition book_deps : list Element :=
  [dep_elem "0" "1" "root";
   dep_elem "3" "2" "det";
   dep_elem "1" "3" "dobj";
   dep_elem "1" "4" "prep";
   dep_elem "7" "5" "det";
   dep_elem "7" "6" "nn";
   dep_elem "4" "7" "pobj"].

Definition theme_span : Element := frame_element_elem "Theme" ["3"].
Definition goal_span : Element := frame_element_elem "Goal" ["5"; "6"; "7"].

Definition bringing_frame : Element :=
  frame_elem "Bringing" ["1"] [theme_span; goal_span].

Definition book_command : Element :=
  command "2307" book_tokens book_deps [bringing_frame].

(** The same sentence, with a second span that starts on the token of the
    first one. *)
Definition wide_goal_span : Element := frame_element_elem "Goal" ["3"; "4"].

Definition overlapping_frame : Element :=
  frame_elem "Bringing" ["1"] [theme_span; wide_goal_span].

Definition overlapping_command : Element :=
  command "2308" book_tokens book_deps [overlapping_frame].

(** The same sentence, the root token without an incoming edge. *)
Definition rootless_command : Element :=
  command "2309" book_tokens (tail book_deps) [bringing_frame].

(** "go there", with token ids that neither start at 1 nor are consecutive. *)
Definition there_frame : Element :=
  frame_elem "Motion" ["7"] [frame_element_elem "Goal" ["3"]].

Definition there_command : Element :=
  command "11"
          [token_elem "7" "go" "go" "VB"; token_elem "3" "there" "there" "EX"]
          [dep_elem "0" "7" "root"; dep_elem "7" "3" "advmod"]
          [there_frame].

(** The rows of the sentences that have a row-set. *)
Definition take_row : list string :=
  ["1"; "take"; "take"; "take"; "VB"; "VB"; "2307"; "_";
   "0"; "0"; "root"; "root"; "take.v"; "Bringing"; "O"].
Definition to_row : list string :=
  ["4"; "to"; "to"; "to"; "TO"; "TO"; "2307"; "_";
   "1"; "1"; "prep"; "prep"; "_"; "_"; "O"].
Definition living_row : list string :=
  ["6"; "living"; "living"; "living"; "NN"; "NN"; "2307"; "_";
   "7"; "7"; "nn"; "nn"; "_"; "_"; "I-Goal"].

Definition book_rows : list (list string) :=
  [take_row;
   ["2"; "the"; "the"; "the"; "DT"; "DT"; "2307"; "_";
    "3"; "3"; "det"; "det"; "_"; "_"; "O"];
   ["3"; "book"; "book"; "book"; "NN"; "NN"; "2307"; "_";
    "1"; "1"; "dobj"; "dobj"; "_"; "_"; "S-Theme"];
   to_row;
   ["5"; "the"; "the"; "the"; "DT"; "DT"; "2307"; "_";
    "7"; "7"; "det"; "det"; "_"; "_"; "B-Goal"];
   living_row;
   ["7"; "room"; "room"; "room"; "NN"; "NN"; "2307"; "_";
    "4"; "4"; "pobj"; "pobj"; "_"; "_"; "I-Goal"]].

Definition overlapping_rows : list (list string) :=
  [["1"; "take"; "take"; "take"; "VB"; "VB"; "2308"; "_";
    "0"; "0"; "root"; "root"; "take.v"; "Bringing"; "O"];
   ["2"; "the"; "the"; "the"; "DT"; "DT"; "2308"; "_";
    "3"; "3"; "det"; "det"; "_"; "_"; "O"];
   ["3"; "book"; "book"; "book"; "NN"; "NN"; "2308"; "_";
    "1"; "1"; "dobj"; "dobj"; "_"; "_"; "B-Goal"];
   ["4"; "to"; "to"; "to"; "TO"; "TO"; "2308"; "_";
    "1"; "1"; "prep"; "prep"; "_"; "_"; "I-Goal"];
   ["5"; "the"; "the"; "the"; "DT"; "DT"; "2308"; "_";
    "7"; "7"; "det"; "det"; "_"; "_"; "O"];
   ["6"; "living"; "living"; "living"; "NN"; "NN"; "2308"; "_";
    "7"; "7"; "nn"; "nn"; "_"; "_"; "O"];
   ["7"; "room"; "room"; "room"; "NN"; "NN"; "2308"; "_";
    "4"; "4"; "pobj"; "pobj"; "_"; "_"; "O"]].

Definition go_row : list string :=
  ["7"; "go"; "go"; "go"; "VB"; "VB"; "11"; "_";
   "0"; "0"; "root"; "root"; "go.v"; "Motion"; "O"].

Definition there_rows : list (list string) :=
  [go_row;
   ["3"; "there"; "there"; "there"; "EX"; "EX"; "11"; "_";
    "7"; "7"; "advmod"; "advmod"; "_"; "_"; "S-Goal"]].

(** "bring me the book", a sentence of four tokens. *)
Definition bring_command : Element :=
  command "2310"
          [token_elem "1" "bring" "bring" "VB";
           token_elem "2" "me" "me" "PRP";
           token_elem "3" "the" "the" "DT";
           token_elem "4" "book" "book" "NN"]
          [dep_elem "0" "1" "root"; dep_elem "1" "2" "iobj";
           dep_elem "4" "3" "det"; dep_elem "1" "4" "dobj"]
          [frame_elem "Bringing" ["1"]
             [frame_element_elem "Beneficiary" ["2"];
              frame_element_elem "Theme" ["3"; "4"]]].

Definition bring_rows : list (list string) :=
  [["1"; "bring"; "bring"; "bring"; "VB"; "VB"; "2310"; "_";
    "0"; "0"; "root"; "root"; "bring.v"; "Bringing"; "O"];
   ["2"; "me"; "me"; "me"; "PRP"; "PRP"; "2310"; "_";
    "1"; "1"; "iobj"; "iobj"; "_"; "_"; "S-Beneficiary"];
   ["3"; "the"; "the"; "the"; "DT"; "DT"; "2310"; "_";
    "4"; "4"; "det"; "det"; "_"; "_"; "B-Theme"];
   ["4"; "book"; "book"; "book"; "NN"; "NN"; "2310"; "_";
    "1"; "1"; "dobj"; "dobj"; "_"; "_"; "I-Theme"]].

End Samples.

(** ** The batch driver and the entry point *)

(** [huric_xml_to_conll(dataset_name)] with its reads of the file system.
    [listdir] gives the names that [os.listdir] returns for a directory, in
    the order in which it returns them; [parse] gives, for a file location,
    the root that [ET.parse(...).getroot()] returns, or the exception that
    opening or parsing the file raises. [sorted] on names is a sort by the
    order of strings. The files are visited in sorted order, each one parsed
    and then converted before the next is opened. *)
Definition huric_xml_to_conll_dir (listdir : string → list string)
    (parse : string → result Element) (dataset_name : string)
  : result (list (list (list string))) :=
  let path_source := PATH_DATASETS +:+ "/" +:+ dataset_name in
  let files_list := listdir path_source in
  foldM (λ results file_name,
           let file_location := path_source +:+ "/" +:+ file_name in
           root ← parse file_location;
           convert_document results root)
        [] (merge_sort String.le files_list).

(** [main]: the two datasets, one after the other. The written files are
    kept in [fs]; the datasets are read through [listdir] and [parse], which
    the writes, all below [data/neural], do not change; [open_error] tells
    which of the output files cannot be opened. *)
Definition main (listdir : string → list string)
    (parse : string → result Element) (open_error : string → option exn)
    (fs : gmap string string)
  : gmap string string * result unit :=
  match huric_xml_to_conll_dir listdir parse "framenet_subset" with
  | Err e => (fs, Err e)
  | Ok samples =>
      let '(fs, r) :=
        write_conll_samples open_error samples "framenet_subset" "dev" fs in
      match r with
      | Err e => (fs, Err e)
      | Ok _ =>
          match huric_xml_to_conll_dir listdir parse "huric_modern" with
          | Err e => (fs, Err e)
          | Ok samples =>
              write_conll_samples open_error samples "huric_modern" "test" fs
          end
      end
  end.

(** The surface forms of the tokens of a document, as the [.sents] file
    shows them. *)
Definition surface_of (tk : Element) : string :=
  default "" (attrib tk !! "surface").

Definition sentence_of (root : Element) : string :=
  join " " (surface_of <$> findall ["tokens"; "token"] root).

(** ** Further sample documents and directories *)

Module Cases.
Import Samples.

(** A document without a frame, whose only token has no attribute. *)
Definition frameless_command : Element :=
  command "2311" [Elem "token" ∅ []] [] [].

(** "go there", with two edges into the second token. *)
Definition two_heads_command : Element :=
  command "12"
          [token_elem "7" "go" "go" "VB"; token_elem "3" "there" "there" "EX"]
          [dep_elem "0" "7" "root"; dep_elem "7" "3" "advmod";
           dep_elem "0" "3" "dep"]
          [there_frame].

Definition two_heads_there_row : list string :=
  ["3"; "there"; "there"; "there"; "EX"; "EX"; "12"; "_";
   "0"; "0"; "dep"; "dep"; "_"; "_"; "S-Goal"].

Definition two_heads_rows : list (list string) :=
  [["7"; "go"; "go"; "go"; "VB"; "VB"; "12"; "_";
    "0"; "0"; "root"; "root"; "go.v"; "Motion"; "O"];
   two_heads_there_row].

(** "go there", with two frames. *)
Definition entering_frame : Element :=
  frame_elem "Entering" ["3"] [frame_element_elem "Theme" ["7"]].

Definition two_frames_command : Element :=
  command "14"
          [token_elem "7" "go" "go" "VB"; token_elem "3" "there" "there" "EX"]
          [dep_elem "0" "7" "root"; dep_elem "7" "3" "advmod"]
          [there_frame; entering_frame].

Definition motion_there_row : list string :=
  ["3"; "there"; "there"; "there"; "EX"; "EX"; "14"; "_";
   "7"; "7"; "advmod"; "advmod"; "_"; "_"; "S-Goal"].
Definition entering_there_row : list string :=
  ["3"; "there"; "there"; "there"; "EX"; "EX"; "14"; "_";
   "7"; "7"; "advmod"; "advmod"; "constitute.v"; "Arriving"; "O"].

Definition motion_rows : list (list string) :=
  [["7"; "go"; "go"; "go"; "VB"; "VB"; "14"; "_";
    "0"; "0"; "root"; "root"; "go.v"; "Motion"; "O"];
   motion_there_row].
Definition entering_rows : list (list string) :=
  [["7"; "go"; "go"; "go"; "VB"; "VB"; "14"; "_";
    "0"; "0"; "root"; "root"; "_"; "_"; "S-Theme"];
   entering_there_row].

(** "the book", with the determiner as lexical unit. *)
Definition entity_frame : Element := frame_elem "Entity" ["1"] [].

Definition determiner_command : Element :=
  command "13"
          [token_elem "1" "the" "the" "DT"; token_elem "2" "book" "book" "NN"]
          [dep_elem "2" "1" "det"; dep_elem "0" "2" "root"]
          [entity_frame].

(** Two listings of a directory with the files a.xml and b.xml. *)
Definition listing_ba (path : string) : list string := ["b.xml"; "a.xml"].
Definition listing_ab (path : string) : list string := ["a.xml"; "b.xml"].

(** The files of the two datasets of [main]. *)
Definition parse_all (file_location : string) : result Element :=
  if decide (file_location = "data/framenet_subset/a.xml")
  then Ok there_command
  else if decide (file_location = "data/framenet_subset/b.xml")
  then Ok book_command
  else if decide (file_location = "data/huric_modern/a.xml")
  then Ok bring_command
  else if decide (file_location = "data/huric_modern/b.xml")
  then Ok there_command
  else Err (Exception ["No such file or directory"; file_location]).

(** The same files, the last one not well-formed XML. *)
Definition parse_bad (file_location : string) : result Element :=
  if decide (file_location = "data/huric_modern/b.xml")
  then Err (Exception ["not well-formed (invalid token)"])
  else parse_all file_location.

(** Environments of the writer: every path can be opened; no path can,
    the output directories being missing. *)
Definition every_open (path : string) : option exn := None.
Definition no_directory (path : string) : option exn :=
  Some (OSError ["No such file or directory"; path]).

(** A row-set of one row with a newline inside its FORM. *)
Definition broken_form_rows : list (list string) :=
  [["1"; "a" +:+ newline +:+ "b"]].

End Cases.

(** ** Reading a tab-separated file back *)

(** Whether a character occurs in a string. *)
Fixpoint has_char (c : ascii) (s : string) : bool :=
  match s with
  | EmptyString => false
  | String a s' => if decide (a = c) then true else has_char c s'
  end.

(** The pieces of a string between the occurrences of a character, as
    [s.split(c)] gives them. *)
Fixpoint split_on (c : ascii) (s : string) : list string :=
  match s with
  | EmptyString => [""]
  | String a s' =>
      if decide (a = c) then "" :: split_on c s'
      else match split_on c s' with
           | [] => [String a ""]
           | piece :: pieces => String a piece :: pieces
           end
  end.

(** The blocks of a list of lines, each block ended by an empty line. *)
Fixpoint blocks (ls : list string) : list (list string) :=
  match ls with
  | [] => []
  | l :: ls' =>
      if decide (l = "") then [] :: blocks ls'
      else match blocks ls' with
           | [] => [[l]]
           | block :: rest => (l :: block) :: rest
           end
  end.

(** The row-sets of a tab-separated file: its lines, without the empty
    piece after the last newline, in blocks, each line split at the tabs. *)
Definition read_conll (content : string) : list (list (list string)) :=
  let ls := split_on "010"%char content in
  (λ block : list string, split_on "009"%char <$> block)
    <$> blocks (take (length ls - 1) ls).

(** Row-sets whose rows have at least two fields, none with a tab or a
    newline in it. *)
Definition plain_field (s : string) : Prop :=
  has_char "009"%char s = false ∧ has_char "010"%char s = false.

Definition plain_samples (samples : list (list (list string))) : Prop :=
  Forall (Forall (λ row, 2 ≤ length row ∧ Forall plain_field row)) samples.

(** ** Reasoning about the error monad and the loops *)

Section monad_facts.
Context {A B : Type}.

Lemma bind_Ok_inv (m : result A) (k : A → result B) (b : B) :
  m ≫= k = Ok b → ∃ a, m = Ok a ∧ k a = Ok b.
Proof. destruct m as [a|e]; [by exists a | done]. Qed.

Lemma not_Ok_is_Err (m : result A) : (∀ a, m ≠ Ok a) → is_Err m.
Proof. destruct m as [a|e]; [by intros H; destruct (H a) | by exists e]. Qed.
End monad_facts.

Lemma getitem_Ok {V : Type} (d : gmap string V) (k : string) (v : V) :
  getitem d k = Ok v ↔ d !! k = Some v.
Proof. unfold getitem. destruct (d !! k); naive_solver. Qed.

Lemma getitem_Err {V : Type} (d : gmap string V) (k : string) :
  d !! k = None → getitem d k = Err (KeyError k).
Proof. unfold getitem. by intros ->. Qed.

(** Peel the binds of a successful computation, one at a time. *)
Ltac ok_inv H :=
  repeat
    (let a := fresh "a" in
     let Ha := fresh "Ha" in
     apply bind_Ok_inv in H as (a & Ha & H);
     try apply getitem_Ok in Ha).

Section loop_facts.
Context {A S : Type} (body : S → A → result S).

Lemma foldM_app (s : S) (l1 l2 : list A) :
  foldM body s (l1 ++ l2) = foldM body s l1 ≫= λ s1, foldM body s1 l2.
Proof.
  revert s. induction l1 as [|x l1 IH]; intros s; simpl; [done|].
  destruct (body s x) as [s'|e]; simpl; [apply IH | done].
Qed.

(** A property of the state that every successful iteration of the body
    keeps is kept by the loop. *)
Lemma foldM_invariant (P : S → Prop) (s s' : S) (l : list A) :
  (∀ s1 s2 x, x ∈ l → P s1 → body s1 x = Ok s2 → P s2) →
  P s → foldM body s l = Ok s' → P s'.
Proof.
  revert s. induction l as [|x l IH]; intros s Hstep Hs Hrun; simpl in Hrun.
  - by injection Hrun as <-.
  - apply bind_Ok_inv in Hrun as (s1 & Hx & Hrun).
    apply (IH s1); [| |done].
    + intros ????. apply Hstep. by right.
    + eapply Hstep; [by left|done..].
Qed.
End loop_facts.

Lemma comprehension_Ok {A B : Type} (f : A → result B) (l : list A)
    (ys : list B) :
  comprehension f l = Ok ys ↔ Forall2 (λ x y, f x = Ok y) l ys.
Proof.
  revert ys. induction l as [|x l IH]; intros ys; simpl.
  - split; [by intros [= <-] | by inversion 1].
  - split.
    + intros H. ok_inv H. injection H as <-. constructor; [done|by apply IH].
    + inversion 1 as [|? y ? ys' Hx Hl]; subst.
      rewrite Hx. simpl. apply IH in Hl. by rewrite Hl.
Qed.

(** ** Name tables *)

Lemma foldl_insert_lookup_ne {V : Type} (entries : list (string * V))
    (d : gmap string V) (k : string) :
  k ∉ entries.*1 →
  foldl (λ d kv, <[kv.1 := kv.2]> d) d entries !! k = d !! k.
Proof.
  revert d. induction entries as [|[k' v] entries IH]; intros d Hk; [done|].
  simpl in *. apply not_elem_of_cons in Hk as [Hne Hk].
  rewrite IH by done. by apply lookup_insert_ne.
Qed.

Lemma dict_lookup_absent {V : Type} (entries : list (string * V))
    (k : string) :
  k ∉ entries.*1 → dict entries !! k = None.
Proof. intros Hk. unfold dict. by rewrite foldl_insert_lookup_ne. Qed.

Lemma get_fn_frame_name_absent (name : string) :
  name ∉ frame_name_keys → get_fn_frame_name name = name.
Proof.
  intros H. unfold get_fn_frame_name, frame_name_mapping.
  by rewrite dict_lookup_absent.
Qed.

Lemma get_lu_lemma_absent (name : string) :
  name ∉ lu_lemma_keys → get_lu_lemma name = name.
Proof.
  intros H. unfold get_lu_lemma, lu_lemma_mapping.
  by rewrite dict_lookup_absent.
Qed.

Lemma get_fe_framenet_absent (name : string) :
  name ∉ fe_keys → get_fe_framenet name = name.
Proof.
  intros H. unfold get_fe_framenet, fe_mapping.
  by rewrite dict_lookup_absent.
Qed.

(** Case analysis on a name that is one of finitely many literals. *)
Ltac literal_cases H :=
  repeat (apply elem_of_cons in H as [->|H]); try (by inversion H).

Lemma get_fn_frame_name_idem (name : string) :
  get_fn_frame_name (get_fn_frame_name name) = get_fn_frame_name name.
Proof.
  destruct (decide (name ∈ frame_name_keys)) as [H|H].
  - unfold frame_name_keys in H. literal_cases H; vm_compute; reflexivity.
  - by rewrite !(get_fn_frame_name_absent name).
Qed.

Lemma get_lu_lemma_idem (name : string) :
  get_lu_lemma (get_lu_lemma name) = get_lu_lemma name.
Proof.
  destruct (decide (name ∈ lu_lemma_keys)) as [H|H].
  - unfold lu_lemma_keys in H. literal_cases H; vm_compute; reflexivity.
  - by rewrite !(get_lu_lemma_absent name).
Qed.

Lemma get_fe_framenet_idem (name : string) :
  get_fe_framenet (get_fe_framenet name) = get_fe_framenet name.
Proof.
  destruct (decide (name ∈ fe_keys)) as [H|H].
  - unfold fe_keys in H. literal_cases H; vm_compute; reflexivity.
  - by rewrite !(get_fe_framenet_absent name).
Qed.

(** ** The part-of-speech rule *)

Lemma get_fn_pos_by_rules_recognized (pos : string) :
  pos ∈ recognized_pos_tags → is_Ok (get_fn_pos_by_rules pos).
Proof.
  intros H. unfold recognized_pos_tags, noun_tags, verb_tags in H. simpl in H.
  literal_cases H; by eexists.
Qed.

Lemma get_fn_pos_by_rules_unrecognized (pos : string) :
  pos ∉ recognized_pos_tags →
  get_fn_pos_by_rules pos = Err (Exception [rule_not_defined; pos]).
Proof.
  unfold recognized_pos_tags. intros H.
  apply not_elem_of_cons in H as [HJJ H].
  apply not_elem_of_app in H as [Hn Hv].
  unfold get_fn_pos_by_rules. by rewrite !decide_False.
Qed.

Lemma recognized_pos_tags_NoDup : NoDup recognized_pos_tags.
Proof. apply (bool_decide_unpack _); by vm_compute. Qed.

(** C1, as stated, counts nine tags with a rule. No list of nine tags
    contains every tag on which the function returns: twelve distinct tags
    have a rule, so outside any nine of them some tag is still mapped. *)
Lemma C1_nine_tags_counterexample :
  ¬ ∃ nine : list string,
      length nine = 9 ∧
      ∀ pos, pos ∉ nine → is_Err (get_fn_pos_by_rules pos).
Proof.
  intros (nine & Hlen & Hraise).
  assert (recognized_pos_tags ⊆+ nine) as Hsub.
  { apply NoDup_submseteq; [apply recognized_pos_tags_NoDup|].
    intros pos Hpos. destruct (decide (pos ∈ nine)) as [|Hout]; [done|].
    destruct (get_fn_pos_by_rules_recognized pos Hpos) as [c Hc].
    destruct (Hraise pos Hout) as [e He]. congruence. }
  apply submseteq_length in Hsub. rewrite Hlen in Hsub.
  vm_compute in Hsub. lia.
Qed.

(** C1 (amended): JJ is mapped to a, the three noun tags to n, the eight
    verb-like tags (six VB forms, the particle RP and the existential EX) to
    v, and every tag outside these twelve raises the exception whose
    arguments are the fixed message and the offending tag; a tag raises only
    in that case. *)
Theorem C1_pos_category_rule (pos : string) :
  pos ∉ ["JJ"; "NN"; "NNP"; "NNS";
         "VB"; "VBD"; "VBG"; "VBN"; "VBP"; "VBZ"; "RP"; "EX"] →
  get_fn_pos_by_rules "JJ" = Ok "a" ∧
  Forall (λ tag, get_fn_pos_by_rules tag = Ok "n") ["NN"; "NNP"; "NNS"] ∧
  Forall (λ tag, get_fn_pos_by_rules tag = Ok "v")
         ["VB"; "VBD"; "VBG"; "VBN"; "VBP"; "VBZ"; "RP"; "EX"] ∧
  get_fn_pos_by_rules pos
    = Err (Exception ["Rule not defined for part-of-speech word"; pos]) ∧
  (∀ tag, is_Err (get_fn_pos_by_rules tag) ↔
          tag ∉ ["JJ"; "NN"; "NNP"; "NNS";
                 "VB"; "VBD"; "VBG"; "VBN"; "VBP"; "VBZ"; "RP"; "EX"]).
Proof.
  intros Hpos. split_and!.
  - done.
  - by repeat constructor.
  - by repeat constructor.
  - by apply get_fn_pos_by_rules_unrecognized.
  - intros tag. split.
    + intros [e He] Htag.
      destruct (get_fn_pos_by_rules_recognized tag Htag) as [c Hc]. congruence.
    + intros Htag. eexists. by apply get_fn_pos_by_rules_unrecognized.
Qed.

Lemma C1_pos_category_rule_witness :
  get_fn_pos_by_rules "FOO"
    = Err (Exception ["Rule not defined for part-of-speech word"; "FOO"]).
Proof.
  refine (proj1 (proj2 (proj2 (proj2 (C1_pos_category_rule "FOO" _))))).
  apply (bool_decide_unpack _); by vm_compute.
Defined.

(** ** Name remapping *)

(** C6: each of the three remapping functions returns a name that is not a
    key of its table unchanged (so Giving stays Giving), and hence applying
    it again to such a name changes nothing; in fact applying any of them
    twice is the same as applying it once, for every name. *)
Theorem C6_remapping_default (name : string) :
  (name ∉ ["Entering"; "Following"; "Searching"] →
     get_fn_frame_name name = name ∧
     get_fn_frame_name (get_fn_frame_name name) = name) ∧
  (name ∉ ["halfcarri"; "positioning"; "reconnoiter"; "half-l"; "be";
           "there"; "along"; "let"; "up"] →
     get_lu_lemma name = name ∧ get_lu_lemma (get_lu_lemma name) = name) ∧
  (name ∉ ["Desired_state"; "Reencoding"] →
     get_fe_framenet name = name ∧
     get_fe_framenet (get_fe_framenet name) = name) ∧
  get_fn_frame_name (get_fn_frame_name name) = get_fn_frame_name name ∧
  get_lu_lemma (get_lu_lemma name) = get_lu_lemma name ∧
  get_fe_framenet (get_fe_framenet name) = get_fe_framenet name ∧
  get_fn_frame_name "Giving" = "Giving" ∧
  get_fn_frame_name "Entering" = "Arriving".
Proof.
  split_and!.
  - intros H. by rewrite !(get_fn_frame_name_absent name).
  - intros H. by rewrite !(get_lu_lemma_absent name).
  - intros H. by rewrite !(get_fe_framenet_absent name).
  - apply get_fn_frame_name_idem.
  - apply get_lu_lemma_idem.
  - apply get_fe_framenet_idem.
  - by vm_compute.
  - by vm_compute.
Qed.

Lemma C6_remapping_default_witness :
  get_fn_frame_name "Giving" = "Giving" ∧
  get_lu_lemma "Giving" = "Giving" ∧
  get_fe_framenet "Giving" = "Giving".
Proof.
  pose proof (C6_remapping_default "Giving") as (Hf & Hl & He & _).
  split_and!.
  - apply Hf. apply (bool_decide_unpack _); by vm_compute.
  - apply Hl. apply (bool_decide_unpack _); by vm_compute.
  - apply He. apply (bool_decide_unpack _); by vm_compute.
Defined.

(** ** Rows *)

(** Reading the defaultdict may add the default under a new key; the label
    of every id stays what it was. *)
Lemma defaultdict_getitem_value (d : gmap string string) (k : string) :
  (defaultdict_getitem "O" d k).1 = label_of d k.
Proof. unfold defaultdict_getitem, label_of. by destruct (d !! k). Qed.

Lemma defaultdict_getitem_labels (d : gmap string string) (k k' : string) :
  label_of (defaultdict_getitem "O" d k).2 k' = label_of d k'.
Proof.
  unfold defaultdict_getitem, label_of.
  destruct (d !! k) as [v|] eqn:Hk; simpl; [done|].
  destruct (decide (k = k')) as [<-|Hne].
  - by rewrite lookup_insert_eq, Hk.
  - by rewrite lookup_insert_ne.
Qed.

Lemma row_of_token_labels cid deps lus fn (fe fe' : gmap string string) t row :
  (∀ k, label_of fe' k = label_of fe k) →
  row_of_token cid deps lus fn fe' t row → row_of_token cid deps lus fn fe t row.
Proof.
  intros Hsame (id & surface & lemma & pos & dep & head & deprel & fillpred & H).
  exists id, surface, lemma, pos, dep, head, deprel, fillpred.
  by rewrite <- Hsame.
Qed.

Lemma conll_row_Ok cid deps lus fn (fe fe' : gmap string string) t row :
  conll_row cid deps lus fn fe t = Ok (row, fe') →
  row_of_token cid deps lus fn fe t row ∧ ∀ k, label_of fe' k = label_of fe k.
Proof.
  unfold conll_row. intros H. ok_inv H.
  rename a into id, a0 into surface, a1 into lemma, a2 into pos,
         a3 into dep, a4 into head, a5 into deprel, a6 into fillpred.
  pose proof (defaultdict_getitem_value fe id) as Hval.
  pose proof (defaultdict_getitem_labels fe id) as Hlab.
  destruct (defaultdict_getitem "O" fe id) as [apred fe1].
  simpl in *. injection H as <- <-. split; [|done].
  exists id, surface, lemma, pos, dep, head, deprel, fillpred.
  split_and!; try done.
  - destruct (decide (id ∈ lus)).
    + ok_inv Ha6. injection Ha6 as <-. eauto.
    + by injection Ha6 as <-.
  - by rewrite Hval.
Qed.

Lemma conll_row_of_token cid deps lus fn (fe : gmap string string) t row :
  row_of_token cid deps lus fn fe t row →
  ∃ fe', conll_row cid deps lus fn fe t = Ok (row, fe').
Proof.
  intros (id & surface & lemma & pos & dep & head & deprel & fillpred &
          Hid & Hsurface & Hlemma & Hpos & Hdep & Hhead & Hdeprel & Hfill & ->).
  exists (defaultdict_getitem "O" fe id).2.
  unfold conll_row.
  apply getitem_Ok in Hid, Hsurface, Hlemma, Hpos, Hdep, Hhead, Hdeprel.
  rewrite Hid; simpl. rewrite Hsurface; simpl. rewrite Hlemma; simpl.
  rewrite Hpos; simpl. rewrite Hdep; simpl. rewrite Hhead; simpl.
  rewrite Hdeprel; simpl.
  pose proof (defaultdict_getitem_value fe id) as Hval.
  destruct (defaultdict_getitem "O" fe id) as [apred fe1]. simpl in *.
  subst apred.
  destruct (decide (id ∈ lus)).
  - destruct Hfill as (rule_pos & -> & ->). done.
  - by subst fillpred.
Qed.

(** The comprehension over the tokens succeeds exactly when every token has
    a row, and then returns these rows in the order of the tokens. *)
Lemma conll_annotation_Ok cid deps lus fn (fe : gmap string string)
    (tokens : list (gmap string string)) (rows : list (list string)) :
  conll_annotation cid deps lus fn fe tokens = Ok rows ↔
  Forall2 (row_of_token cid deps lus fn fe) tokens rows.
Proof.
  revert fe rows. induction tokens as [|t tokens IH]; intros fe rows; simpl.
  - split; [by intros [= <-] | by inversion 1].
  - split.
    + intros H. apply bind_Ok_inv in H as ([row fe1] & Hrow & H).
      ok_inv H. injection H as <-.
      apply conll_row_Ok in Hrow as [Hrow Hsame].
      constructor; [done|]. apply IH in Ha.
      eapply Forall2_impl; [done|]. intros t' row'.
      by apply row_of_token_labels.
    + inversion 1 as [|? row ? rows' Hrow Hrows]; subst.
      destruct (conll_row_of_token _ _ _ _ _ _ _ Hrow) as [fe1 Hrun].
      rewrite Hrun. simpl.
      apply conll_row_Ok in Hrun as [_ Hsame].
      assert (conll_annotation cid deps lus fn fe1 tokens = Ok rows') as ->.
      { apply IH. eapply Forall2_impl; [done|]. intros t' row'.
        apply row_of_token_labels. intros k. by rewrite Hsame. }
      done.
Qed.

(** ** The label map of a frame *)

Lemma label_token_Ok len name (s s' : gmap string string) (ct : nat * Element) :
  label_token len name s ct = Ok s' →
  ∃ id, attrib ct.2 !! "id" = Some id ∧
        s' = <[id := iob_prefix ct.1 len +:+ "-" +:+ name]> s.
Proof.
  unfold label_token. intros H. ok_inv H. injection H as <-. eauto.
Qed.

(** The loop over the tokens of a span leaves alone every id that the span
    does not name. *)
Lemma label_tokens_other len name (s s' : gmap string string)
    (l : list (nat * Element)) (id : string) :
  foldM (label_token len name) s l = Ok s' →
  (∀ ct, ct ∈ l → attrib ct.2 !! "id" ≠ Some id) →
  s' !! id = s !! id.
Proof.
  intros Hrun Hother.
  apply (foldM_invariant (label_token len name)
           (λ s1, s1 !! id = s !! id) s s' l); [|done..].
  intros s1 s2 ct Hct Hs1 Hstep.
  apply label_token_Ok in Hstep as (id' & Hid' & ->).
  rewrite lookup_insert_ne; [done|]. intros ->. by apply (Hother ct).
Qed.

(** The label of an id after the loop over a span is the one written for
    the last token of the span that names it. *)
Lemma label_tokens_last len name (s s' : gmap string string)
    (l1 l2 : list (nat * Element)) (ct : nat * Element) (id : string) :
  foldM (label_token len name) s (l1 ++ ct :: l2) = Ok s' →
  attrib ct.2 !! "id" = Some id →
  (∀ ct', ct' ∈ l2 → attrib ct'.2 !! "id" ≠ Some id) →
  s' !! id = Some (iob_prefix ct.1 len +:+ "-" +:+ name).
Proof.
  intros Hrun Hid Hlater. rewrite foldM_app in Hrun.
  apply bind_Ok_inv in Hrun as (s1 & _ & Hrun). simpl in Hrun.
  apply bind_Ok_inv in Hrun as (s2 & Hct & Hrun).
  apply label_token_Ok in Hct as (id' & Hid' & ->).
  assert (id' = id) as -> by congruence.
  rewrite (label_tokens_other _ _ _ _ _ id Hrun Hlater).
  apply lookup_insert_eq.
Qed.

Lemma enumerate_middle {A : Type} (l : list A) (c : nat) (x : A) :
  l !! c = Some x →
  enumerate l = enumerate (take c l) ++
                (c, x) :: imap (λ i y, (S c + i, y)) (drop (S c) l).
Proof.
  intros Hc. unfold enumerate.
  rewrite <- (take_drop_middle l c x Hc) at 1.
  rewrite imap_app. simpl.
  assert (length (take c l) = c) as ->.
  { apply length_take_le. apply lookup_lt_Some in Hc. lia. }
  rewrite Nat.add_0_r. do 2 f_equal.
  apply imap_ext. intros i y _. simpl. f_equal. lia.
Qed.

Lemma elem_of_enumerate {A : Type} (l : list A) (ct : nat * A) :
  ct ∈ enumerate l → ct.2 ∈ l.
Proof.
  unfold enumerate. intros H.
  apply elem_of_lookup_imap in H as (i & y & -> & Hi).
  by eapply list_elem_of_lookup_2.
Qed.

Lemma label_frame_element_Ok (s s' : gmap string string) (el : Element) :
  label_frame_element s el = Ok s' →
  ∃ ty, attrib el !! "type" = Some ty ∧
        foldM (label_token (length (findall ["token"] el)) (get_fe_framenet ty))
              s (enumerate (findall ["token"] el)) = Ok s'.
Proof. unfold label_frame_element. intros H. ok_inv H. eauto. Qed.

(** A frame element leaves alone every id that none of its tokens names. *)
Lemma label_frame_element_other (s s' : gmap string string) (el : Element)
    (id : string) :
  label_frame_element s el = Ok s' →
  (∀ tk, tk ∈ findall ["token"] el → attrib tk !! "id" ≠ Some id) →
  s' !! id = s !! id.
Proof.
  intros Hrun Hother.
  apply label_frame_element_Ok in Hrun as (ty & _ & Hrun).
  eapply label_tokens_other; [done|].
  intros ct Hct. apply Hother. by apply elem_of_enumerate.
Qed.

Lemma label_frame_elements_other (s s' : gmap string string)
    (els : list Element) (id : string) :
  foldM label_frame_element s els = Ok s' →
  (∀ el tk, el ∈ els → tk ∈ findall ["token"] el →
            attrib tk !! "id" ≠ Some id) →
  s' !! id = s !! id.
Proof.
  intros Hrun Hother.
  apply (foldM_invariant label_frame_element
           (λ s1, s1 !! id = s !! id) s s' els); [|done..].
  intros s1 s2 el Hel Hs1 Hstep. rewrite <- Hs1.
  eapply label_frame_element_other; [done|].
  intros tk Htk. by apply (Hother el).
Qed.

(** The label that the [c]-th token of a frame element writes is the final
    one when no later token of the frame element and no token of a later
    frame element names the same id. *)
Lemma label_frame_elements_last (s s' : gmap string string)
    (els : list Element) (p c : nat) (el tk : Element) (ty id : string) :
  foldM label_frame_element s els = Ok s' →
  els !! p = Some el → attrib el !! "type" = Some ty →
  findall ["token"] el !! c = Some tk → attrib tk !! "id" = Some id →
  (∀ c' tk', c < c' → findall ["token"] el !! c' = Some tk' →
             attrib tk' !! "id" ≠ Some id) →
  (∀ p' el' tk', p < p' → els !! p' = Some el' →
                 tk' ∈ findall ["token"] el' → attrib tk' !! "id" ≠ Some id) →
  s' !! id = Some (iob_prefix c (length (findall ["token"] el)) +:+ "-"
                   +:+ get_fe_framenet ty).
Proof.
  intros Hrun Hp Hty Hc Hid Hspan Hlater.
  rewrite <- (take_drop_middle els p el Hp), foldM_app in Hrun.
  apply bind_Ok_inv in Hrun as (s1 & _ & Hrun). simpl in Hrun.
  apply bind_Ok_inv in Hrun as (s2 & Hel & Hrun).
  rewrite (label_frame_elements_other _ _ _ id Hrun).
  - apply label_frame_element_Ok in Hel as (ty' & Hty' & Hel).
    assert (ty' = ty) as -> by congruence.
    rewrite (enumerate_middle _ c tk Hc) in Hel.
    apply (label_tokens_last _ _ _ _ _ _ (c, tk) id Hel Hid).
    intros ct' Hct'.
    apply elem_of_lookup_imap in Hct' as (i & tk' & -> & Hi).
    rewrite lookup_drop in Hi. apply (Hspan (S c + i)); [lia|done].
  - intros el' tk' Hel' Htk'.
    apply list_elem_of_lookup in Hel' as [i Hi].
    rewrite lookup_drop in Hi. by apply (Hlater (S p + i) el' tk'); [lia|..].
Qed.

(** ** The dependency map *)

(** An id is a key of the dependency map only if some [dep] element has it
    as its [to] attribute. *)
Lemma deps_of_lookup (root : Element)
    (deps : gmap string (gmap string string)) (id : string)
    (dep : gmap string string) :
  deps_of root = Ok deps → deps !! id = Some dep →
  ∃ d, d ∈ findall ["dependencies"; "dep"] root ∧ attrib d = dep ∧
       dep !! "to" = Some id.
Proof.
  unfold deps_of. intros Hrun. revert id dep.
  set (l := findall ["dependencies"; "dep"] root).
  set (body := λ (deps : gmap string (gmap string string)) (d : Element),
         to ← getitem (attrib d) "to"; Ok (<[to := attrib d]> deps)).
  apply (foldM_invariant body
           (λ m, ∀ id dep, m !! id = Some dep →
                   ∃ d, d ∈ l ∧ attrib d = dep ∧ dep !! "to" = Some id)
           ∅ deps l); [|done|exact Hrun].
  intros m1 m2 d Hd Hm1 Hstep id dep Hlook. unfold body in Hstep.
  ok_inv Hstep. injection Hstep as <-.
  destruct (decide (a = id)) as [->|Hne].
  - rewrite lookup_insert_eq in Hlook. injection Hlook as <-. eauto.
  - rewrite lookup_insert_ne in Hlook by done. by apply Hm1.
Qed.

(** ** Documents and frames *)

Lemma frame_rows_Ok cid (tokens : list (gmap string string)) deps frame rows :
  frame_rows cid tokens deps frame = Ok rows ↔
  ∃ fn lus fe,
    attrib frame !! "name" = Some fn ∧ lus_of frame = Ok lus ∧
    labels_of frame = Ok fe ∧
    Forall2 (row_of_token cid deps lus fn fe) tokens rows.
Proof.
  unfold frame_rows, lus_of, labels_of. split.
  - intros H. ok_inv H. apply conll_annotation_Ok in H.
    by exists a, a0, a1.
  - intros (fn & lus & fe & Hfn & -> & -> & Hrows).
    apply getitem_Ok in Hfn. rewrite Hfn. simpl.
    by apply conll_annotation_Ok.
Qed.

(** A loop that appends one result per element appends, in order, the
    results of its elements. *)
Lemma foldM_append_Ok {A B : Type} (f : A → result B) (l : list A)
    (acc acc' : list B) :
  foldM (λ acc x, y ← f x; Ok (acc ++ [y])) acc l = Ok acc' ↔
  ∃ ys, Forall2 (λ x y, f x = Ok y) l ys ∧ acc' = acc ++ ys.
Proof.
  revert acc. induction l as [|x l IH]; intros acc; simpl.
  - split.
    + intros [= <-]. exists []. by rewrite app_nil_r.
    + intros (ys & Hys & ->). inversion Hys. by rewrite app_nil_r.
  - split.
    + intros H. apply bind_Ok_inv in H as (acc1 & Hx & H).
      apply bind_Ok_inv in Hx as (y & Hy & [= <-]).
      apply IH in H as (ys & Hys & ->).
      exists (y :: ys). split; [by constructor|]. by rewrite <- app_assoc.
    + intros (ys & Hys & ->).
      inversion Hys as [|? y ? ys' Hy Hys']; subst.
      rewrite Hy. simpl. apply IH. exists ys'.
      split; [done|]. by rewrite <- app_assoc.
Qed.

Lemma convert_document_Ok (results results' : list (list (list string)))
    (root : Element) :
  convert_document results root = Ok results' ↔
  ∃ cid deps rowsets,
    attrib root !! "id" = Some cid ∧ deps_of root = Ok deps ∧
    Forall2 (λ frame rows, frame_rows cid (tokens_of root) deps frame = Ok rows)
            (findall ["semantics"; "frameSemantics"; "frame"] root) rowsets ∧
    results' = results ++ rowsets.
Proof.
  unfold convert_document. fold (tokens_of root). split.
  - intros H. ok_inv H. apply foldM_append_Ok in H as (rowsets & Hrs & ->).
    by exists a, a0, rowsets.
  - intros (cid & deps & rowsets & Hcid & -> & Hrs & ->).
    apply getitem_Ok in Hcid. rewrite Hcid. simpl.
    apply foldM_append_Ok. eauto.
Qed.

Lemma Forall2_pair_with {A B C : Type} (P : A → B → C → Prop) (a : A)
    (l : list B) (k : list C) :
  Forall2 (P a) l k →
  Forall2 (λ ab c, P ab.1 ab.2 c) (b ← l; [(a, b)]) k.
Proof. induction 1; simpl; by constructor. Qed.

Lemma foldM_convert_document_Ok (roots : list Element)
    (acc results : list (list (list string))) :
  foldM convert_document acc roots = Ok results →
  ∃ rowsets, results = acc ++ rowsets ∧
     Forall2 (λ rf rows, emitted rf.1 rf.2 rows) (document_frames roots) rowsets.
Proof.
  revert acc. induction roots as [|root roots IH]; intros acc H; simpl in H.
  - injection H as <-. exists []. by rewrite app_nil_r.
  - apply bind_Ok_inv in H as (acc1 & Hroot & H).
    apply convert_document_Ok in Hroot as (cid & deps & rs & Hcid & Hdeps & Hrs & ->).
    apply IH in H as (rest & -> & Hrest).
    exists (rs ++ rest). split; [by rewrite app_assoc|].
    unfold document_frames. simpl. apply Forall2_app; [|done].
    apply (Forall2_pair_with emitted).
    eapply Forall2_impl; [done|]. intros frame rows Hrows.
    apply frame_rows_Ok in Hrows as (fn & lus & fe & ? & ? & ? & ?).
    by exists cid, deps, fn, lus, fe.
Qed.

(** What a successful run returns: one row-set per frame, in the order of
    the loops, each the row-set of its frame. *)
Lemma huric_xml_to_conll_Ok (roots : list Element)
    (results : list (list (list string))) :
  huric_xml_to_conll roots = Ok results →
  Forall2 (λ rf rows, emitted rf.1 rf.2 rows) (document_frames roots) results.
Proof.
  intros H. apply foldM_convert_document_Ok in H as (rowsets & -> & H). done.
Qed.

Lemma huric_xml_to_conll_emitted roots results k root frame rows :
  huric_xml_to_conll roots = Ok results →
  document_frames roots !! k = Some (root, frame) →
  results !! k = Some rows →
  emitted root frame rows.
Proof.
  intros H Hk Hrows. apply huric_xml_to_conll_Ok in H.
  by apply (Forall2_lookup_lr _ _ _ _ _ _ H Hk Hrows).
Qed.

Lemma emitted_row root frame rows j t row :
  emitted root frame rows →
  tokens_of root !! j = Some t → rows !! j = Some row →
  ∃ cid deps fn lus fe,
    attrib root !! "id" = Some cid ∧ deps_of root = Ok deps ∧
    attrib frame !! "name" = Some fn ∧ lus_of frame = Ok lus ∧
    labels_of frame = Ok fe ∧ row_of_token cid deps lus fn fe t row.
Proof.
  intros (cid & deps & fn & lus & fe & ? & ? & ? & ? & ? & Hrows) Ht Hrow.
  exists cid, deps, fn, lus, fe. split_and!; try done.
  by apply (Forall2_lookup_lr _ _ _ _ _ _ Hrows Ht Hrow).
Qed.

(** ** Properties of the emitted rows *)

Lemma elem_of_document_frames (roots : list Element) (root frame : Element) :
  root ∈ roots →
  frame ∈ findall ["semantics"; "frameSemantics"; "frame"] root →
  (root, frame) ∈ document_frames roots.
Proof.
  intros Hroot Hframe. unfold document_frames.
  apply list_elem_of_bind. exists root. split; [|done].
  apply list_elem_of_bind. exists frame. split; [|done].
  by apply list_elem_of_singleton.
Qed.

(** C2: the dependency fields of a row come from looking the token id up in
    the map keyed by the [to] attribute of the [dep] elements. When a token
    of a document with a frame has no incoming edge, the run raises; the
    token id is then no key of the dependency map, and the row of the token,
    once its own four attributes are read, raises the lookup failure for
    this id whatever the frame is. No row with a sentinel head is emitted. *)
Theorem C2_missing_dependency_edge (roots : list Element)
    (root frame : Element) (t : gmap string string) (id : string) :
  root ∈ roots →
  frame ∈ findall ["semantics"; "frameSemantics"; "frame"] root →
  t ∈ tokens_of root →
  t !! "id" = Some id →
  (∀ d, d ∈ findall ["dependencies"; "dep"] root → attrib d !! "to" ≠ Some id) →
  is_Err (huric_xml_to_conll roots) ∧
  ∀ deps_by_t_id, deps_of root = Ok deps_by_t_id →
    deps_by_t_id !! id = None ∧
    ∀ command_id lus frame_name fe_by_t_id,
      is_Some (t !! "surface") → is_Some (t !! "lemma") →
      is_Some (t !! "pos") →
      conll_row command_id deps_by_t_id lus frame_name fe_by_t_id t
        = Err (KeyError id).
Proof.
  intros Hroot Hframe Ht Hid Hnoedge.
  assert (∀ deps, deps_of root = Ok deps → deps !! id = None) as Hnone.
  { intros deps Hdeps. destruct (deps !! id) as [dep|] eqn:Hdep; [|done].
    destruct (deps_of_lookup _ _ _ _ Hdeps Hdep) as (d & Hd & <- & Hto).
    by destruct (Hnoedge d Hd). }
  split.
  - apply not_Ok_is_Err. intros results Hrun.
    apply huric_xml_to_conll_Ok in Hrun.
    pose proof (elem_of_document_frames _ _ _ Hroot Hframe) as Hrf.
    apply list_elem_of_lookup in Hrf as [k Hk].
    destruct (Forall2_lookup_l _ _ _ _ _ Hrun Hk) as (rows & _ & Hemitted).
    destruct Hemitted as (cid & deps & fn & lus & fe & _ & Hdeps & _ & _ & _ & Hrows).
    apply list_elem_of_lookup in Ht as [j Hj].
    destruct (Forall2_lookup_l _ _ _ _ _ Hrows Hj) as (row & _ & Hrow).
    destruct Hrow as (id' & ? & ? & ? & dep & ? & ? & ? & Hid' & _ & _ & _ & Hdep & _).
    assert (id' = id) as -> by congruence.
    rewrite (Hnone deps Hdeps) in Hdep. done.
  - intros deps Hdeps. split; [by apply Hnone|].
    intros cid lus fn fe [surface Hsurface] [lemma Hlemma] [pos Hpos].
    unfold conll_row.
    apply getitem_Ok in Hid, Hsurface, Hlemma, Hpos.
    rewrite Hid; simpl. rewrite Hsurface; simpl. rewrite Hlemma; simpl.
    rewrite Hpos; simpl. by rewrite (getitem_Err _ _ (Hnone deps Hdeps)).
Qed.

Lemma C2_missing_dependency_edge_witness :
  is_Err (huric_xml_to_conll [Samples.rootless_command]) ∧
  ∀ deps_by_t_id, deps_of Samples.rootless_command = Ok deps_by_t_id →
    deps_by_t_id !! "1" = None ∧
    ∀ command_id lus frame_name fe_by_t_id,
      is_Some (attrib (Samples.token_elem "1" "take" "take" "VB") !! "surface") →
      is_Some (attrib (Samples.token_elem "1" "take" "take" "VB") !! "lemma") →
      is_Some (attrib (Samples.token_elem "1" "take" "take" "VB") !! "pos") →
      conll_row command_id deps_by_t_id lus frame_name fe_by_t_id
                (attrib (Samples.token_elem "1" "take" "take" "VB"))
        = Err (KeyError "1").
Proof.
  apply (C2_missing_dependency_edge
           [Samples.rootless_command] Samples.rootless_command
           Samples.bringing_frame).
  - by left.
  - apply list_elem_of_lookup. by exists 0.
  - apply list_elem_of_lookup. by exists 0.
  - by vm_compute.
  - apply Forall_forall. apply (bool_decide_unpack _). by vm_compute.
Defined.

(** The run on the sentence whose root token has no incoming edge. *)
Example rootless_command_raises :
  huric_xml_to_conll [Samples.rootless_command] = Err (KeyError "1").
Proof. by vm_compute. Qed.

(** C3, as stated, gives the single token of every one-token span the S
    label of that span. In the frame below the span Theme covers token 3
    alone, and the later span Goal starts on token 3 too: the row of token 3
    carries B-Goal, the label written last. *)
Lemma C3_overlapping_spans_counterexample :
  ¬ ∀ roots results k root frame rows p el ty c tk id j t row,
      huric_xml_to_conll roots = Ok results →
      document_frames roots !! k = Some (root, frame) →
      results !! k = Some rows →
      findall ["frameElement"] frame !! p = Some el →
      attrib el !! "type" = Some ty →
      findall ["token"] el !! c = Some tk →
      attrib tk !! "id" = Some id →
      tokens_of root !! j = Some t →
      t !! "id" = Some id →
      rows !! j = Some row →
      (length (findall ["token"] el) = 1 →
         row !! 14 = Some ("S-" +:+ get_fe_framenet ty)) ∧
      (length (findall ["token"] el) > 1 → c = 0 →
         row !! 14 = Some ("B-" +:+ get_fe_framenet ty)) ∧
      (length (findall ["token"] el) > 1 → c > 0 →
         row !! 14 = Some ("I-" +:+ get_fe_framenet ty)).
Proof.
  intros Hclaim.
  destruct (Hclaim
    [Samples.overlapping_command]
    [Samples.overlapping_rows]
    0 Samples.overlapping_command Samples.overlapping_frame
    Samples.overlapping_rows
    0 Samples.theme_span "Theme" 0 (Samples.token_ref "3") "3"
    2 (attrib (Samples.token_elem "3" "book" "book" "NN"))
    ["3"; "book"; "book"; "book"; "NN"; "NN"; "2308"; "_";
     "1"; "1"; "dobj"; "dobj"; "_"; "_"; "B-Goal"]
    ltac:(by vm_compute) eq_refl eq_refl eq_refl
    ltac:(by vm_compute) eq_refl ltac:(by vm_compute) eq_refl
    ltac:(by vm_compute) eq_refl) as (HS & _ & _).
  specialize (HS eq_refl). vm_compute in HS. discriminate HS.
Qed.

(** C3 (amended): take a token entry of a frame-element span whose id is
    named by no later entry of the same span and by no entry of a later
    frame element of the frame. In the row of every sentence token with
    that id the last column is S-role when the span has one entry,
    B-role when the span is longer and the entry is its first, and
    I-role when the span is longer and the entry is a later one; the role
    is the frame-element name after remapping, the same for all entries of
    the span. *)
Theorem C3_span_labels (roots : list Element)
    (results : list (list (list string))) (k : nat) (root frame : Element)
    (rows : list (list string)) (p : nat) (el : Element) (ty : string)
    (c : nat) (tk : Element) (id : string) (j : nat)
    (t : gmap string string) (row : list string) :
  huric_xml_to_conll roots = Ok results →
  document_frames roots !! k = Some (root, frame) →
  results !! k = Some rows →
  findall ["frameElement"] frame !! p = Some el →
  attrib el !! "type" = Some ty →
  findall ["token"] el !! c = Some tk →
  attrib tk !! "id" = Some id →
  (∀ c' tk', c < c' → findall ["token"] el !! c' = Some tk' →
             attrib tk' !! "id" ≠ Some id) →
  (∀ p' el' tk', p < p' → findall ["frameElement"] frame !! p' = Some el' →
                 tk' ∈ findall ["token"] el' → attrib tk' !! "id" ≠ Some id) →
  tokens_of root !! j = Some t →
  t !! "id" = Some id →
  rows !! j = Some row →
  (length (findall ["token"] el) = 1 →
     row !! 14 = Some ("S-" +:+ get_fe_framenet ty)) ∧
  (length (findall ["token"] el) > 1 → c = 0 →
     row !! 14 = Some ("B-" +:+ get_fe_framenet ty)) ∧
  (length (findall ["token"] el) > 1 → c > 0 →
     row !! 14 = Some ("I-" +:+ get_fe_framenet ty)).
Proof.
  intros Hrun Hk Hrows Hp Hty Hc Hid Hspan Hlater Hj Htid Hrow.
  pose proof (huric_xml_to_conll_emitted _ _ _ _ _ _ Hrun Hk Hrows) as Hem.
  destruct (emitted_row _ _ _ _ _ _ Hem Hj Hrow)
    as (cid & deps & fn & lus & fe & _ & _ & _ & _ & Hfe & Hrt).
  destruct Hrt as (id' & ? & ? & ? & ? & ? & ? & ? & Hid' & _ & _ & _ & _ & _ & _ & _ & ->).
  assert (id' = id) as -> by congruence.
  unfold labels_of in Hfe.
  pose proof (label_frame_elements_last _ _ _ _ _ _ _ _ _
                Hfe Hp Hty Hc Hid Hspan Hlater) as Hlabel.
  simpl. unfold label_of. rewrite Hlabel. simpl. unfold iob_prefix.
  split_and!.
  - intros ->. done.
  - intros Hn ->. rewrite decide_False by lia. done.
  - intros Hn Hc0. rewrite decide_False by lia.
    rewrite (decide_False (P := c = 0)) by lia. done.
Qed.

Lemma C3_span_labels_witness :
  (length (findall ["token"] Samples.goal_span) = 1 →
     Samples.living_row !! 14 = Some ("S-" +:+ get_fe_framenet "Goal")) ∧
  (length (findall ["token"] Samples.goal_span) > 1 → 1 = 0 →
     Samples.living_row !! 14 = Some ("B-" +:+ get_fe_framenet "Goal")) ∧
  (length (findall ["token"] Samples.goal_span) > 1 → 1 > 0 →
     Samples.living_row !! 14 = Some ("I-" +:+ get_fe_framenet "Goal")).
Proof.
  apply (C3_span_labels
           [Samples.book_command] [Samples.book_rows] 0 Samples.book_command
           Samples.bringing_frame Samples.book_rows
           1 Samples.goal_span "Goal" 1 (Samples.token_ref "6") "6"
           5 (attrib (Samples.token_elem "6" "living" "living" "NN"))
           Samples.living_row).
  - by vm_compute.
  - reflexivity.
  - reflexivity.
  - reflexivity.
  - by vm_compute.
  - reflexivity.
  - by vm_compute.
  - intros c' tk' Hc' Htk'.
    destruct c' as [|[|[|c']]]; [lia|lia| |done].
    injection Htk' as <-. by vm_compute.
  - intros p' el' tk' Hp' Hel'.
    destruct p' as [|[|p']]; [lia|lia|done].
  - reflexivity.
  - by vm_compute.
  - reflexivity.
Defined.

Example book_command_rows :
  huric_xml_to_conll [Samples.book_command] = Ok [Samples.book_rows].
Proof. by vm_compute. Qed.

Example overlapping_command_rows :
  huric_xml_to_conll [Samples.overlapping_command]
    = Ok [Samples.overlapping_rows].
Proof. by vm_compute. Qed.

Example there_command_rows :
  huric_xml_to_conll [Samples.there_command] = Ok [Samples.there_rows].
Proof. by vm_compute. Qed.

(** C4: in the row-set of a frame, the row of a token whose id is named by
    no token entry of any frame element of that frame ends with the label
    O, in the fifteenth and last column. *)
Theorem C4_uncovered_token_label (roots : list Element)
    (results : list (list (list string))) (k : nat) (root frame : Element)
    (rows : list (list string)) (j : nat) (t : gmap string string)
    (id : string) (row : list string) :
  huric_xml_to_conll roots = Ok results →
  document_frames roots !! k = Some (root, frame) →
  results !! k = Some rows →
  tokens_of root !! j = Some t →
  t !! "id" = Some id →
  rows !! j = Some row →
  (∀ el tk, el ∈ findall ["frameElement"] frame →
            tk ∈ findall ["token"] el → attrib tk !! "id" ≠ Some id) →
  row !! 14 = Some "O" ∧ last row = Some "O".
Proof.
  intros Hrun Hk Hrows Hj Htid Hrow Huncovered.
  pose proof (huric_xml_to_conll_emitted _ _ _ _ _ _ Hrun Hk Hrows) as Hem.
  destruct (emitted_row _ _ _ _ _ _ Hem Hj Hrow)
    as (cid & deps & fn & lus & fe & _ & _ & _ & _ & Hfe & Hrt).
  destruct Hrt as (id' & ? & ? & ? & ? & ? & ? & ? & Hid' & _ & _ & _ & _ & _ & _ & _ & ->).
  assert (id' = id) as -> by congruence.
  unfold labels_of in Hfe.
  pose proof (label_frame_elements_other _ _ _ id Hfe Huncovered) as Hlabel.
  rewrite lookup_empty in Hlabel.
  simpl. unfold label_of. by rewrite Hlabel.
Qed.

Lemma C4_uncovered_token_label_witness :
  Samples.to_row !! 14 = Some "O" ∧ last Samples.to_row = Some "O".
Proof.
  apply (C4_uncovered_token_label
           [Samples.book_command] [Samples.book_rows] 0 Samples.book_command
           Samples.bringing_frame Samples.book_rows
           3 (attrib (Samples.token_elem "4" "to" "to" "TO")) "4"
           Samples.to_row).
  - by vm_compute.
  - reflexivity.
  - reflexivity.
  - reflexivity.
  - by vm_compute.
  - reflexivity.
  - intros el tk Hel Htk.
    change (findall ["frameElement"] Samples.bringing_frame)
      with [Samples.theme_span; Samples.goal_span] in Hel.
    literal_cases Hel.
    + change (findall ["token"] Samples.theme_span)
        with [Samples.token_ref "3"] in Htk.
      literal_cases Htk. by vm_compute.
    + change (findall ["token"] Samples.goal_span)
        with [Samples.token_ref "5"; Samples.token_ref "6";
              Samples.token_ref "7"] in Htk.
      literal_cases Htk; by vm_compute.
Defined.

(** C5: in the row-set of a frame, the row of a token whose id is not among
    the lexical unit ids of the frame has the placeholder in both FILLPRED
    and PRED; the row of a token whose id is among them has the remapped
    lemma, a dot and the part-of-speech category in FILLPRED, and the
    remapped frame name in PRED. *)
Theorem C5_predicate_columns (roots : list Element)
    (results : list (list (list string))) (k : nat) (root frame : Element)
    (rows : list (list string)) (lus : list string) (j : nat)
    (t : gmap string string) (id : string) (row : list string) :
  huric_xml_to_conll roots = Ok results →
  document_frames roots !! k = Some (root, frame) →
  results !! k = Some rows →
  lus_of frame = Ok lus →
  tokens_of root !! j = Some t →
  t !! "id" = Some id →
  rows !! j = Some row →
  (id ∉ lus → row !! 12 = Some "_" ∧ row !! 13 = Some "_") ∧
  (id ∈ lus →
     ∃ lemma pos rule_pos frame_name,
       t !! "lemma" = Some lemma ∧ t !! "pos" = Some pos ∧
       get_fn_pos_by_rules pos = Ok rule_pos ∧
       attrib frame !! "name" = Some frame_name ∧
       row !! 12 = Some (get_lu_lemma lemma +:+ "." +:+ rule_pos) ∧
       row !! 13 = Some (get_fn_frame_name frame_name)).
Proof.
  intros Hrun Hk Hrows Hlus Hj Htid Hrow.
  pose proof (huric_xml_to_conll_emitted _ _ _ _ _ _ Hrun Hk Hrows) as Hem.
  destruct (emitted_row _ _ _ _ _ _ Hem Hj Hrow)
    as (cid & deps & fn & lus' & fe & _ & _ & Hfn & Hlus' & _ & Hrt).
  assert (lus' = lus) as -> by congruence.
  destruct Hrt as (id' & surface & lemma & pos & dep & head & deprel & fillpred
                   & Hid' & _ & Hlemma & Hpos & _ & _ & _ & Hfill & ->).
  assert (id' = id) as -> by congruence.
  simpl. destruct (decide (id ∈ lus)) as [Hin|Hout].
  - split; [done|]. intros _.
    destruct Hfill as (rule_pos & Hrule & ->).
    by exists lemma, pos, rule_pos, fn.
  - split; [|done]. intros _. by subst fillpred.
Qed.

Lemma C5_predicate_columns_witness :
  ("1" ∉ ["1"] →
     Samples.take_row !! 12 = Some "_" ∧ Samples.take_row !! 13 = Some "_") ∧
  ("1" ∈ ["1"] →
     ∃ lemma pos rule_pos frame_name,
       attrib (Samples.token_elem "1" "take" "take" "VB") !! "lemma"
         = Some lemma ∧
       attrib (Samples.token_elem "1" "take" "take" "VB") !! "pos"
         = Some pos ∧
       get_fn_pos_by_rules pos = Ok rule_pos ∧
       attrib Samples.bringing_frame !! "name" = Some frame_name ∧
       Samples.take_row !! 12
         = Some (get_lu_lemma lemma +:+ "." +:+ rule_pos) ∧
       Samples.take_row !! 13 = Some (get_fn_frame_name frame_name)).
Proof.
  apply (C5_predicate_columns
           [Samples.book_command] [Samples.book_rows] 0 Samples.book_command
           Samples.bringing_frame Samples.book_rows ["1"]
           0 (attrib (Samples.token_elem "1" "take" "take" "VB")) "1"
           Samples.take_row).
  - by vm_compute.
  - reflexivity.
  - reflexivity.
  - by vm_compute.
  - reflexivity.
  - by vm_compute.
  - reflexivity.
Defined.

(** C7: a successful run returns one row-set per frame of the documents, in
    the order of the loops; the row-set of a frame has as many rows as the
    document has tokens, and its j-th row is the row of the j-th token: it
    carries that token's id and surface form. *)
Theorem C7_one_row_per_token (roots : list Element)
    (results : list (list (list string))) :
  huric_xml_to_conll roots = Ok results →
  length results = length (document_frames roots) ∧
  ∀ k root frame rows,
    document_frames roots !! k = Some (root, frame) →
    results !! k = Some rows →
    length rows = length (findall ["tokens"; "token"] root) ∧
    ∀ j tk, findall ["tokens"; "token"] root !! j = Some tk →
      ∃ row id surface,
        rows !! j = Some row ∧
        attrib tk !! "id" = Some id ∧ row !! 0 = Some id ∧
        attrib tk !! "surface" = Some surface ∧ row !! 1 = Some surface.
Proof.
  intros Hrun. split.
  - apply huric_xml_to_conll_Ok in Hrun. symmetry. by eapply Forall2_length.
  - intros k root frame rows Hk Hrows.
    pose proof (huric_xml_to_conll_emitted _ _ _ _ _ _ Hrun Hk Hrows) as Hem.
    destruct Hem as (cid & deps & fn & lus & fe & _ & _ & _ & _ & _ & Hall).
    split.
    + apply Forall2_length in Hall. unfold tokens_of in Hall.
      by rewrite length_fmap in Hall.
    + intros j tk Hj.
      assert (tokens_of root !! j = Some (attrib tk)) as Ht.
      { unfold tokens_of. by rewrite list_lookup_fmap, Hj. }
      destruct (Forall2_lookup_l _ _ _ _ _ Hall Ht) as (row & Hrow & Hrt).
      destruct Hrt as (id & surface & ? & ? & ? & ? & ? & ? & Hid & Hsurface & _
                       & _ & _ & _ & _ & _ & ->).
      eexists; exists id, surface. by split_and!.
Qed.

Lemma C7_one_row_per_token_witness :
  length [Samples.book_rows] = length (document_frames [Samples.book_command]) ∧
  ∀ k root frame rows,
    document_frames [Samples.book_command] !! k = Some (root, frame) →
    [Samples.book_rows] !! k = Some rows →
    length rows = length (findall ["tokens"; "token"] root) ∧
    ∀ j tk, findall ["tokens"; "token"] root !! j = Some tk →
      ∃ row id surface,
        rows !! j = Some row ∧
        attrib tk !! "id" = Some id ∧ row !! 0 = Some id ∧
        attrib tk !! "surface" = Some surface ∧ row !! 1 = Some surface.
Proof.
  apply (C7_one_row_per_token [Samples.book_command] [Samples.book_rows]).
  by vm_compute.
Defined.

(** C10: the first field of every emitted row is the [id] attribute of its
    token, as the document gives it; the position of the token in the
    sentence plays no part in it. *)
Theorem C10_id_verbatim (roots : list Element)
    (results : list (list (list string))) (k : nat) (root frame : Element)
    (rows : list (list string)) (j : nat) (tk : Element) (row : list string) :
  huric_xml_to_conll roots = Ok results →
  document_frames roots !! k = Some (root, frame) →
  results !! k = Some rows →
  findall ["tokens"; "token"] root !! j = Some tk →
  rows !! j = Some row →
  is_Some (attrib tk !! "id") ∧ row !! 0 = attrib tk !! "id".
Proof.
  intros Hrun Hk Hrows Hj Hrow.
  pose proof (huric_xml_to_conll_emitted _ _ _ _ _ _ Hrun Hk Hrows) as Hem.
  assert (tokens_of root !! j = Some (attrib tk)) as Ht.
  { unfold tokens_of. by rewrite list_lookup_fmap, Hj. }
  destruct (emitted_row _ _ _ _ _ _ Hem Ht Hrow)
    as (cid & deps & fn & lus & fe & _ & _ & _ & _ & _ & Hrt).
  destruct Hrt as (id & ? & ? & ? & ? & ? & ? & ? & Hid & _ & _ & _ & _ & _ & _ & _ & ->).
  rewrite Hid. by split.
Qed.

Lemma C10_id_verbatim_witness :
  is_Some (attrib (Samples.token_elem "7" "go" "go" "VB") !! "id") ∧
  Samples.go_row !! 0 = attrib (Samples.token_elem "7" "go" "go" "VB") !! "id".
Proof.
  apply (C10_id_verbatim
           [Samples.there_command] [Samples.there_rows] 0
           Samples.there_command Samples.there_frame Samples.there_rows 0).
  - by vm_compute.
  - reflexivity.
  - reflexivity.
  - reflexivity.
  - reflexivity.
Defined.

(** ** Strings *)

Lemma str_app_cons (c : ascii) (s1 s2 : string) :
  String c s1 +:+ s2 = String c (s1 +:+ s2).
Proof. reflexivity. Qed.

Lemma str_app_nil_l (s : string) : "" +:+ s = s.
Proof. reflexivity. Qed.

Lemma str_app_nil_r (s : string) : s +:+ "" = s.
Proof. induction s as [|c s IH]; [done|]. by rewrite str_app_cons, IH. Qed.

Lemma str_app_assoc (s1 s2 s3 : string) :
  (s1 +:+ s2) +:+ s3 = s1 +:+ s2 +:+ s3.
Proof.
  induction s1 as [|c s1 IH]; [done|]. by rewrite !str_app_cons, IH.
Qed.

Lemma count_newlines_app (s1 s2 : string) :
  count_newlines (s1 +:+ s2) = count_newlines s1 + count_newlines s2.
Proof.
  induction s1 as [|c s1 IH]; [done|].
  rewrite str_app_cons. simpl. rewrite IH. lia.
Qed.

Lemma last_char_None (s : string) : last_char s = None → s = "".
Proof.
  induction s as [|c s IH]; [done|]. simpl.
  destruct s as [|c' s]; [done|]. intros H. by apply IH in H.
Qed.

Lemma last_char_cons (c : ascii) (s : string) :
  last_char (String c s) = match last_char s with
                           | Some c' => Some c'
                           | None => Some c
                           end.
Proof.
  destruct s as [|c' s]; [done|].
  change (last_char (String c (String c' s))) with (last_char (String c' s)).
  destruct (last_char (String c' s)) eqn:Hlast; [done|].
  by apply last_char_None in Hlast.
Qed.

Lemma last_char_app (s1 s2 : string) :
  last_char (s1 +:+ s2) = match last_char s2 with
                          | Some c => Some c
                          | None => last_char s1
                          end.
Proof.
  induction s1 as [|c s1 IH].
  - rewrite str_app_nil_l. by destruct (last_char s2).
  - rewrite str_app_cons, !last_char_cons, IH.
    by destruct (last_char s2), (last_char s1).
Qed.

Lemma lines_app (l1 l2 : list string) :
  lines (l1 ++ l2) = lines l1 +:+ lines l2.
Proof.
  induction l1 as [|l l1 IH]; [done|].
  simpl. by rewrite IH, !str_app_assoc.
Qed.

Lemma count_newlines_lines (ls : list string) :
  Forall newline_free ls → count_newlines (lines ls) = length ls.
Proof.
  induction 1 as [|l ls Hl _ IH]; [done|].
  simpl. rewrite !count_newlines_app, IH, Hl. done.
Qed.

Lemma newline_free_join (sep : string) (l : list string) :
  newline_free sep → Forall newline_free l → newline_free (join sep l).
Proof.
  unfold newline_free, join. intros Hsep.
  induction 1 as [|s l Hs Hl IH]; [done|].
  destruct l as [|s' l]; [done|].
  change (String.concat sep (s :: s' :: l))
    with (s +:+ sep +:+ String.concat sep (s' :: l)).
  rewrite !count_newlines_app, Hs, Hsep, IH. done.
Qed.

(** ** The files *)

Lemma write_rows_lines (f : string) (seq : list (list string)) :
  foldl (λ f s, write f (join tab s +:+ newline)) f seq
  = f +:+ lines (join tab <$> seq).
Proof.
  revert f. induction seq as [|s seq IH]; intros f; simpl.
  - by rewrite str_app_nil_r.
  - rewrite IH. unfold write. by rewrite !str_app_assoc.
Qed.

(** What the body of a [.conll] block writes: for each row-set, the lines of
    its rows and one empty line. *)
Lemma write_conll_lines (f : string) (samples : list (list (list string))) :
  write_conll f samples
  = f +:+ lines (seq ← samples; (join tab <$> seq) ++ [""]).
Proof.
  unfold write_conll. revert f.
  induction samples as [|seq samples IH]; intros f; simpl.
  - by rewrite str_app_nil_r.
  - rewrite IH, write_rows_lines. unfold write.
    rewrite !lines_app. simpl. by rewrite !str_app_assoc.
Qed.

Lemma forms_Ok (seq : list (list string)) :
  Forall (λ row, 2 ≤ length row) seq →
  comprehension (λ w, list_getitem w 1) seq = Ok (FORM <$> seq).
Proof.
  intros H. apply comprehension_Ok.
  induction H as [|row seq Hrow _ IH]; simpl; constructor; [|done].
  unfold list_getitem, FORM.
  destruct (row !! 1) eqn:Hlook; [done|].
  apply lookup_ge_None in Hlook. lia.
Qed.

(** What the body of the [.sents] block writes when every row has a FORM:
    one line per row-set. *)
Lemma write_sents_lines (f : string) (samples : list (list (list string))) :
  Forall (Forall (λ row, 2 ≤ length row)) samples →
  write_sents f samples
  = (f +:+ lines ((λ seq, join " " (FORM <$> seq)) <$> samples), Ok ()).
Proof.
  intros H. revert f.
  induction H as [|seq samples Hseq _ IH]; intros f; simpl.
  - by rewrite str_app_nil_r.
  - rewrite (forms_Ok _ Hseq), IH. unfold write. by rewrite !str_app_assoc.
Qed.

(** The three paths: the [.sents] path differs from the two others, which
    end in another letter. *)
Lemma conll_file_loc_last (dataset_name mode : string) :
  last_char (conll_file_loc dataset_name mode) = Some "l"%char.
Proof. unfold conll_file_loc. by rewrite !last_char_app. Qed.

Lemma fulltext_file_loc_last (dataset_name : string) :
  last_char (fulltext_file_loc dataset_name) = Some "l"%char.
Proof. unfold fulltext_file_loc. by rewrite !last_char_app. Qed.

Lemma sents_file_loc_last (dataset_name : string) :
  last_char (sents_file_loc dataset_name) = Some "s"%char.
Proof. unfold sents_file_loc. by rewrite !last_char_app. Qed.

Lemma sents_ne_conll (dataset_name mode : string) :
  sents_file_loc dataset_name ≠ conll_file_loc dataset_name mode.
Proof.
  intros H. apply (f_equal last_char) in H.
  by rewrite sents_file_loc_last, conll_file_loc_last in H.
Qed.

Lemma sents_ne_fulltext (dataset_name : string) :
  sents_file_loc dataset_name ≠ fulltext_file_loc dataset_name.
Proof.
  intros H. apply (f_equal last_char) in H.
  by rewrite sents_file_loc_last, fulltext_file_loc_last in H.
Qed.

(** The two [.conll] files after the call when both can be opened, whether
    or not the [.sents] file can be opened and its block raises. *)
Lemma write_conll_samples_conll (open_error : string → option exn)
    samples dataset_name mode (fs : gmap string string) :
  open_error (conll_file_loc dataset_name mode) = None →
  open_error (fulltext_file_loc dataset_name) = None →
  (write_conll_samples open_error samples dataset_name mode fs).1
     !! conll_file_loc dataset_name mode = Some (write_conll "" samples) ∧
  (write_conll_samples open_error samples dataset_name mode fs).1
     !! fulltext_file_loc dataset_name = Some (write_conll "" samples).
Proof.
  intros Hconll Hfull. unfold write_conll_samples. rewrite Hconll, Hfull.
  assert (∀ fs' : gmap string string,
            <[fulltext_file_loc dataset_name := write_conll "" samples]>
              (<[conll_file_loc dataset_name mode := write_conll "" samples]>
                 fs')
              !! conll_file_loc dataset_name mode
            = Some (write_conll "" samples)) as Hboth.
  { intros fs'.
    destruct (decide (fulltext_file_loc dataset_name
                      = conll_file_loc dataset_name mode)) as [->|Hne].
    - by rewrite lookup_insert_eq.
    - rewrite lookup_insert_ne by done. by rewrite lookup_insert_eq. }
  destruct (open_error (sents_file_loc dataset_name)) as [e|]; simpl.
  - split; [apply Hboth|by rewrite lookup_insert_eq].
  - destruct (write_sents "" samples) as [f r]. simpl. split.
    + rewrite lookup_insert_ne by apply sents_ne_conll. apply Hboth.
    + rewrite lookup_insert_ne by apply sents_ne_fulltext.
      by rewrite lookup_insert_eq.
Qed.

Example bring_command_rows :
  huric_xml_to_conll [Samples.bring_command] = Ok [Samples.bring_rows].
Proof. by vm_compute. Qed.

(** C8: when the mode-specific file and the fulltext.train file can both
    be opened, after the call they hold the same content, character for
    character: what the loop over the row-sets writes. This holds for every
    sequence of row-sets, also when the third file cannot be opened or the
    block that writes it raises. *)
Theorem C8_fulltext_duplicate (open_error : string → option exn)
    (samples : list (list (list string)))
    (dataset_name mode : string) (fs : gmap string string) :
  open_error (conll_file_loc dataset_name mode) = None →
  open_error (fulltext_file_loc dataset_name) = None →
  ∃ content : string,
    (write_conll_samples open_error samples dataset_name mode fs).1
       !! conll_file_loc dataset_name mode = Some content ∧
    (write_conll_samples open_error samples dataset_name mode fs).1
       !! fulltext_file_loc dataset_name = Some content ∧
    content = write_conll "" samples.
Proof.
  intros Hconll Hfull. exists (write_conll "" samples).
  destruct (write_conll_samples_conll open_error samples dataset_name mode fs
              Hconll Hfull) as [H1 H2].
  done.
Qed.

Lemma C8_fulltext_duplicate_witness :
  ∃ content : string,
    (write_conll_samples Cases.every_open [Samples.bring_rows]
       "huric_modern" "test" ∅).1
       !! conll_file_loc "huric_modern" "test" = Some content ∧
    (write_conll_samples Cases.every_open [Samples.bring_rows]
       "huric_modern" "test" ∅).1
       !! fulltext_file_loc "huric_modern" = Some content ∧
    content = write_conll "" [Samples.bring_rows].
Proof.
  apply C8_fulltext_duplicate; reflexivity.
Defined.

Lemma length_bind_sum {A B : Type} (f : A → list B) (l : list A) :
  length (l ≫= f) = sum_list ((λ x, length (f x)) <$> l).
Proof.
  induction l as [|x l IH]; [done|].
  rewrite bind_cons, length_app, IH. done.
Qed.

Lemma newline_free_FORM (row : list string) :
  Forall newline_free row → newline_free (FORM row).
Proof.
  intros H. unfold FORM. destruct (row !! 1) as [s|] eqn:Hs; [|done].
  simpl. eapply Forall_lookup_1; [exact H|exact Hs].
Qed.

(** C9, as stated, counts lines: n + 1 for a row-set of n rows, and one
    line of the [.sents] file per row-set. The fields are written as they
    are, so a newline inside a field starts a line of its own: the row-set
    below has one row, whose FORM holds a newline, and its file has three
    newline-terminated lines, not two, while the [.sents] file has two lines
    for the one row-set. *)
Lemma C9_newline_field_counterexample :
  ¬ ∀ (open_error : string → option exn)
      (samples : list (list (list string))) (dataset_name mode : string)
      (fs : gmap string string),
      open_error (conll_file_loc dataset_name mode) = None →
      open_error (fulltext_file_loc dataset_name) = None →
      open_error (sents_file_loc dataset_name) = None →
      Forall (Forall (λ row, 2 ≤ length row)) samples →
      count_newlines
        (default ""
           ((write_conll_samples open_error samples dataset_name mode fs).1
              !! conll_file_loc dataset_name mode))
        = sum_list ((λ seq, length seq + 1) <$> samples) ∧
      count_newlines
        (default ""
           ((write_conll_samples open_error samples dataset_name mode fs).1
              !! sents_file_loc dataset_name))
        = length samples.
Proof.
  intros Hclaim.
  destruct (Hclaim Cases.every_open [Cases.broken_form_rows]
              "huric_modern" "test" ∅ eq_refl eq_refl eq_refl) as [Hconll _].
  - repeat constructor.
  - vm_compute in Hconll. discriminate Hconll.
Qed.

(** C9 (amended): when the three files can be opened, the tab-separated
    file consists of, for each row-set in order, its tab-joined rows, each
    followed by a newline, and then one more newline. When every row has a
    FORM column the call returns and the [.sents] file holds, for each
    row-set, the FORM fields of its rows joined by spaces and a newline.
    When no field contains a newline character these are lines: a row-set
    of n rows gives n lines and one empty line, so the file has the sum of
    n + 1 lines, and the [.sents] file has one line per row-set. *)
Theorem C9_written_lines (open_error : string → option exn)
    (samples : list (list (list string)))
    (dataset_name mode : string) (fs : gmap string string) :
  open_error (conll_file_loc dataset_name mode) = None →
  open_error (fulltext_file_loc dataset_name) = None →
  open_error (sents_file_loc dataset_name) = None →
  (write_conll_samples open_error samples dataset_name mode fs).1
     !! conll_file_loc dataset_name mode
    = Some (lines (seq ← samples; (join tab <$> seq) ++ [""])) ∧
  length (seq ← samples; (join tab <$> seq) ++ [""])
    = sum_list ((λ seq, length seq + 1) <$> samples) ∧
  (Forall (Forall (λ row, 2 ≤ length row)) samples →
     (write_conll_samples open_error samples dataset_name mode fs).2 = Ok () ∧
     (write_conll_samples open_error samples dataset_name mode fs).1
        !! sents_file_loc dataset_name
       = Some (lines ((λ seq, join " " (FORM <$> seq)) <$> samples))) ∧
  (Forall (Forall (Forall newline_free)) samples →
     count_newlines (lines (seq ← samples; (join tab <$> seq) ++ [""]))
       = sum_list ((λ seq, length seq + 1) <$> samples) ∧
     count_newlines (lines ((λ seq, join " " (FORM <$> seq)) <$> samples))
       = length samples).
Proof.
  intros Hconll Hfull Hsents.
  assert (length (seq ← samples; (join tab <$> seq) ++ [""])
          = sum_list ((λ seq, length seq + 1) <$> samples)) as Hlen.
  { rewrite length_bind_sum. f_equal. apply list_fmap_ext. intros _ seq _.
    by rewrite length_app, length_fmap. }
  split_and!.
  - destruct (write_conll_samples_conll open_error samples dataset_name mode
                fs Hconll Hfull) as [-> _].
    by rewrite write_conll_lines.
  - exact Hlen.
  - intros Hform. unfold write_conll_samples.
    rewrite Hconll, Hfull, Hsents, (write_sents_lines _ _ Hform). simpl.
    split; [done|]. by rewrite lookup_insert_eq.
  - intros Hfree. split.
    + rewrite count_newlines_lines; [done|].
      apply Forall_bind. eapply Forall_impl; [exact Hfree|].
      intros seq Hseq. simpl. apply Forall_app. split; [|by repeat constructor].
      apply Forall_fmap. eapply Forall_impl; [exact Hseq|].
      intros row Hrow. simpl. by apply newline_free_join.
    + rewrite count_newlines_lines; [by rewrite length_fmap|].
      apply Forall_fmap. eapply Forall_impl; [exact Hfree|].
      intros seq Hseq. simpl. apply newline_free_join; [done|].
      apply Forall_fmap. eapply Forall_impl; [exact Hseq|].
      intros row Hrow. simpl. by apply newline_free_FORM.
Qed.

Lemma C9_written_lines_witness :
  (write_conll_samples Cases.every_open [Samples.bring_rows]
     "huric_modern" "test" ∅).2 = Ok () ∧
  (write_conll_samples Cases.every_open [Samples.bring_rows]
     "huric_modern" "test" ∅).1
     !! sents_file_loc "huric_modern" = Some ("bring me the book" +:+ newline) ∧
  count_newlines
    (lines (seq ← [Samples.bring_rows]; (join tab <$> seq) ++ [""])) = 5 ∧
  count_newlines
    (lines ((λ seq, join " " (FORM <$> seq)) <$> [Samples.bring_rows])) = 1.
Proof.
  destruct (C9_written_lines Cases.every_open [Samples.bring_rows]
              "huric_modern" "test" ∅ eq_refl eq_refl eq_refl)
    as (_ & _ & Hsents & Hcount).
  destruct Hsents as [Hret Hfile].
  { repeat constructor. }
  destruct Hcount as [Hconll Hone].
  { repeat (constructor; try reflexivity). }
  split_and!; [exact Hret|exact Hfile|exact Hconll|exact Hone].
Defined.

(** ** The converter returns on well-formed documents *)

Lemma getitem_is_Ok {V : Type} (d : gmap string V) (k : string) :
  is_Some (d !! k) → is_Ok (getitem d k).
Proof. intros [v Hv]. exists v. by apply getitem_Ok. Qed.

Lemma foldM_is_Ok {A S : Type} (body : S → A → result S) (s : S)
    (l : list A) :
  (∀ s x, x ∈ l → is_Ok (body s x)) → is_Ok (foldM body s l).
Proof.
  revert s. induction l as [|x l IH]; intros s Hbody; simpl.
  - by exists s.
  - destruct (Hbody s x) as [s1 ->]; [by left|]. simpl.
    apply IH. intros s2 y Hy. apply Hbody. by right.
Qed.

Lemma Forall_is_Ok_Forall2 {A B : Type} (f : A → result B) (l : list A) :
  (∀ x, x ∈ l → is_Ok (f x)) → ∃ ys, Forall2 (λ x y, f x = Ok y) l ys.
Proof.
  induction l as [|x l IH]; intros Hf.
  - by exists [].
  - destruct (Hf x) as [y Hy]; [by left|].
    destruct IH as [ys Hys]; [intros z Hz; apply Hf; by right|].
    exists (y :: ys). by constructor.
Qed.

Lemma Forall_exists_Forall2 {A B : Type} (R : A → B → Prop) (l : list A) :
  (∀ x, x ∈ l → ∃ y, R x y) → ∃ ys, Forall2 R l ys.
Proof.
  induction l as [|x l IH]; intros HR.
  - by exists [].
  - destruct (HR x) as [y Hy]; [by left|].
    destruct IH as [ys Hys]; [intros z Hz; apply HR; by right|].
    exists (y :: ys). by constructor.
Qed.

Lemma lus_of_is_Ok (frame : Element) :
  well_formed_frame frame → is_Ok (lus_of frame).
Proof.
  intros (_ & Hlus & _). unfold lus_of.
  destruct (Forall_is_Ok_Forall2 (λ lu, getitem (attrib lu) "id")
              (findall ["lexicalUnit"; "token"] frame)) as [ys Hys].
  - intros lu Hlu. apply getitem_is_Ok. by apply Hlus.
  - exists ys. by apply comprehension_Ok.
Qed.

Lemma labels_of_is_Ok (frame : Element) :
  well_formed_frame frame → is_Ok (labels_of frame).
Proof.
  intros (_ & _ & Hels). unfold labels_of.
  apply foldM_is_Ok. intros s el Hel.
  destruct (Hels el Hel) as [[ty Hty] Htks].
  unfold label_frame_element. apply getitem_Ok in Hty. rewrite Hty. simpl.
  apply foldM_is_Ok. intros s1 ct Hct. apply elem_of_enumerate in Hct.
  destruct (Htks _ Hct) as [id Hid].
  unfold label_token. apply getitem_Ok in Hid. rewrite Hid. by eexists.
Qed.

Lemma deps_of_is_Ok (root : Element) :
  (∀ d, d ∈ findall ["dependencies"; "dep"] root →
        is_Some (attrib d !! "to")) →
  is_Ok (deps_of root).
Proof.
  intros Hto. unfold deps_of. apply foldM_is_Ok. intros s d Hd.
  destruct (Hto d Hd) as [to Hd']. apply getitem_Ok in Hd'.
  rewrite Hd'. by eexists.
Qed.

(** The [to] attribute of every [dep] element is a key of the dependency
    map. *)
Lemma deps_of_is_Some (root : Element)
    (deps : gmap string (gmap string string)) (id : string) (d : Element) :
  deps_of root = Ok deps →
  d ∈ findall ["dependencies"; "dep"] root → attrib d !! "to" = Some id →
  is_Some (deps !! id).
Proof.
  unfold deps_of. generalize (findall ["dependencies"; "dep"] root).
  intros l Hrun Hd Hto.
  cut (is_Some ((∅ : gmap string (gmap string string)) !! id) ∨ d ∈ l);
    [|by right].
  revert Hrun. generalize (∅ : gmap string (gmap string string)).
  clear Hd. induction l as [|d' l IH]; intros s Hrun Hin; simpl in Hrun.
  - injection Hrun as <-. destruct Hin as [?|Hin]; [done|by inversion Hin].
  - apply bind_Ok_inv in Hrun as (s1 & Hstep & Hrun).
    ok_inv Hstep. injection Hstep as <-.
    apply (IH _ Hrun).
    destruct Hin as [Hs|Hin].
    + left. destruct (decide (a = id)) as [->|Hne].
      * rewrite lookup_insert_eq. by eexists.
      * by rewrite lookup_insert_ne.
    + apply elem_of_cons in Hin as [<-|Hin]; [|by right].
      left. assert (a = id) as -> by congruence.
      rewrite lookup_insert_eq. by eexists.
Qed.

Lemma elem_of_lus (frame : Element) (lus : list string) (id : string) :
  lus_of frame = Ok lus → id ∈ lus →
  ∃ lu, lu ∈ findall ["lexicalUnit"; "token"] frame ∧
        attrib lu !! "id" = Some id.
Proof.
  unfold lus_of. intros Hlus Hid. apply comprehension_Ok in Hlus.
  apply list_elem_of_lookup in Hid as [i Hi].
  destruct (Forall2_lookup_r _ _ _ _ _ Hlus Hi) as (lu & Hlu & Hget).
  exists lu. split; [by eapply list_elem_of_lookup_2|by apply getitem_Ok].
Qed.

Lemma frame_rows_is_Ok (root frame : Element) (cid : string)
    (deps : gmap string (gmap string string)) :
  well_formed_document root →
  frame ∈ findall ["semantics"; "frameSemantics"; "frame"] root →
  deps_of root = Ok deps →
  is_Ok (frame_rows cid (tokens_of root) deps frame).
Proof.
  intros (_ & Hdeps & Hframes & Htokens) Hframe Hrun.
  pose proof (Hframes frame Hframe) as Hwf.
  destruct (lus_of_is_Ok frame Hwf) as [lus Hlus].
  destruct (labels_of_is_Ok frame Hwf) as [fe Hfe].
  destruct Hwf as ([fn Hfn] & _ & _).
  destruct (Forall_exists_Forall2 (row_of_token cid deps lus fn fe)
              (tokens_of root)) as [rows Hrows].
  - intros t Ht. unfold tokens_of in Ht.
    apply list_elem_of_fmap in Ht as (tk & -> & Htk).
    destruct (Htokens tk Htk)
      as (id & pos & Hid & [surface Hsurface] & [lemma Hlemma] & Hpos
          & (d & Hd & Hto) & Hrule).
    destruct (deps_of_is_Some _ _ _ _ Hrun Hd Hto) as [dep Hdep].
    destruct (deps_of_lookup _ _ _ _ Hrun Hdep) as (d' & Hd' & <- & _).
    destruct (Hdeps d' Hd') as (_ & [head Hhead] & [deprel Hdeprel]).
    destruct (decide (id ∈ lus)) as [Hin|Hout] eqn:Hdec.
    + destruct (elem_of_lus _ _ _ Hlus Hin) as (lu & Hlu & Hluid).
      destruct (get_fn_pos_by_rules_recognized pos
                  (Hrule frame lu Hframe Hlu Hluid)) as [rule_pos Hrp].
      eexists. exists id, surface, lemma, pos, (attrib d'), head, deprel,
                      (get_lu_lemma lemma +:+ "." +:+ rule_pos).
      rewrite Hdec. split_and!; try done. by exists rule_pos.
    + eexists. exists id, surface, lemma, pos, (attrib d'), head, deprel, "_".
      rewrite Hdec. by split_and!.
  - exists rows. apply frame_rows_Ok. by exists fn, lus, fe.
Qed.

Lemma convert_document_is_Ok (results : list (list (list string)))
    (root : Element) :
  well_formed_document root → is_Ok (convert_document results root).
Proof.
  intros Hwf. pose proof Hwf as ([cid Hcid] & Hdeps & _ & _).
  destruct (deps_of_is_Ok root) as [deps Hrun].
  { intros d Hd. by destruct (Hdeps d Hd). }
  destruct (Forall_is_Ok_Forall2
              (λ frame, frame_rows cid (tokens_of root) deps frame)
              (findall ["semantics"; "frameSemantics"; "frame"] root))
    as [rowsets Hrowsets].
  { intros frame Hframe. by apply (frame_rows_is_Ok root). }
  exists (results ++ rowsets). apply convert_document_Ok.
  by exists cid, deps, rowsets.
Qed.

(** X1: on well-formed documents the converter returns its row-sets: it
    raises only when a document lacks its id, a [dep] element one of its
    three attributes, a frame its name, a lexical unit or frame element
    token its id, a frame element its type, a token one of its four
    attributes or an incoming edge, or when a token of a lexical unit has a
    tag without a rule. *)
Theorem huric_xml_to_conll_total (roots : list Element) :
  Forall well_formed_document roots → is_Ok (huric_xml_to_conll roots).
Proof.
  intros Hwf. unfold huric_xml_to_conll. apply foldM_is_Ok.
  intros results root Hroot. apply convert_document_is_Ok.
  by eapply Forall_forall.
Qed.

(** ** Further properties of the converter *)

(** A loop whose body extends an accumulated list, and whose outcome does
    not otherwise depend on it, can be run from the empty list. *)
Lemma foldM_from_nil {A B : Type} (body : list B → A → result (list B))
    (l : list A) (acc : list B) :
  (∀ acc x, body acc x = bs ← body [] x; Ok (acc ++ bs)) →
  foldM body acc l = bs ← foldM body [] l; Ok (acc ++ bs).
Proof.
  intros Hbody. revert acc. induction l as [|x l IH]; intros acc; simpl.
  - by rewrite app_nil_r.
  - rewrite (Hbody acc x). destruct (body [] x) as [bs|e]; simpl; [|done].
    rewrite (IH (acc ++ bs)), (IH bs).
    destruct (foldM body [] l) as [bs'|e]; simpl; [|done].
    by rewrite app_assoc.
Qed.

Lemma convert_document_from_nil (results : list (list (list string)))
    (root : Element) :
  convert_document results root
  = rowsets ← convert_document [] root; Ok (results ++ rowsets).
Proof.
  unfold convert_document.
  destruct (getitem (attrib root) "id") as [cid|e]; simpl; [|done].
  destruct (deps_of root) as [deps|e]; simpl; [|done].
  apply foldM_from_nil. intros acc frame.
  by destruct (frame_rows cid _ deps frame).
Qed.

(** The run on two lists of documents, one after the other. *)
Lemma huric_xml_to_conll_app_eq (roots1 roots2 : list Element) :
  huric_xml_to_conll (roots1 ++ roots2)
  = results1 ← huric_xml_to_conll roots1;
    results2 ← huric_xml_to_conll roots2;
    Ok (results1 ++ results2).
Proof.
  unfold huric_xml_to_conll. rewrite foldM_app.
  destruct (foldM convert_document [] roots1) as [results1|e]; simpl; [|done].
  apply foldM_from_nil. intros acc root. apply convert_document_from_nil.
Qed.

(** X7: converting a list of documents that is the concatenation of two
    lists gives the row-sets of the first list followed by those of the
    second; when the first list raises, the whole run raises the same
    exception, and otherwise an exception of the second list is the
    outcome. *)
Theorem X7_documents_concatenate (roots1 roots2 : list Element) :
  huric_xml_to_conll (roots1 ++ roots2)
  = match huric_xml_to_conll roots1 with
    | Err e => Err e
    | Ok results1 =>
        match huric_xml_to_conll roots2 with
        | Err e => Err e
        | Ok results2 => Ok (results1 ++ results2)
        end
    end.
Proof.
  rewrite huric_xml_to_conll_app_eq.
  destruct (huric_xml_to_conll roots1); simpl; [|done].
  by destruct (huric_xml_to_conll roots2).
Qed.

Lemma convert_document_no_frame (results : list (list (list string)))
    (root : Element) :
  findall ["semantics"; "frameSemantics"; "frame"] root = [] →
  is_Some (attrib root !! "id") →
  (∀ d, d ∈ findall ["dependencies"; "dep"] root →
        is_Some (attrib d !! "to")) →
  convert_document results root = Ok results.
Proof.
  intros Hnone [cid Hcid] Hto.
  destruct (deps_of_is_Ok root Hto) as [deps Hdeps].
  apply convert_document_Ok. exists cid, deps, [].
  rewrite Hnone, app_nil_r. by split_and!.
Qed.

(** X6: a document without a frame, which has its id and whose dependency
    elements all have their [to] attribute, adds no row-set and is not
    looked at further: its tokens may lack attributes or incoming edges.
    The run with the document is the run without it. *)
Theorem X6_document_without_frame (roots1 roots2 : list Element)
    (root : Element) :
  findall ["semantics"; "frameSemantics"; "frame"] root = [] →
  is_Some (attrib root !! "id") →
  (∀ d, d ∈ findall ["dependencies"; "dep"] root →
        is_Some (attrib d !! "to")) →
  huric_xml_to_conll (roots1 ++ root :: roots2)
  = huric_xml_to_conll (roots1 ++ roots2).
Proof.
  intros Hnone Hid Hto.
  assert (huric_xml_to_conll [root] = Ok []) as Hroot.
  { unfold huric_xml_to_conll. cbn [foldM].
    by rewrite (convert_document_no_frame [] root Hnone Hid Hto). }
  rewrite !huric_xml_to_conll_app_eq.
  destruct (huric_xml_to_conll roots1) as [results1|e]; simpl; [|done].
  change (root :: roots2) with ([root] ++ roots2).
  rewrite huric_xml_to_conll_app_eq, Hroot. simpl.
  by destruct (huric_xml_to_conll roots2).
Qed.

(** X2: every row of every emitted row-set has exactly fifteen fields; the
    predicted columns repeat the gold ones (LEMMA and PLEMMA, POS and PPOS,
    HEAD and PHEAD, DEPREL and PDEPREL), FEAT is the id of the document and
    PFEAT is the placeholder. *)
Theorem X2_row_shape (roots : list Element)
    (results : list (list (list string))) (k : nat) (root frame : Element)
    (rows : list (list string)) (row : list string) :
  huric_xml_to_conll roots = Ok results →
  document_frames roots !! k = Some (root, frame) →
  results !! k = Some rows →
  row ∈ rows →
  length row = 15 ∧
  row !! 3 = row !! 2 ∧ row !! 5 = row !! 4 ∧
  row !! 9 = row !! 8 ∧ row !! 11 = row !! 10 ∧
  row !! 6 = attrib root !! "id" ∧ row !! 7 = Some "_".
Proof.
  intros Hrun Hk Hrows Hrow.
  pose proof (huric_xml_to_conll_emitted _ _ _ _ _ _ Hrun Hk Hrows) as Hem.
  destruct Hem as (cid & deps & fn & lus & fe & Hcid & _ & _ & _ & _ & Hall).
  apply list_elem_of_lookup in Hrow as [j Hj].
  destruct (Forall2_lookup_r _ _ _ _ _ Hall Hj) as (t & _ & Hrt).
  destruct Hrt as (? & ? & ? & ? & ? & ? & ? & ? & _ & _ & _ & _ & _ & _ & _ & _ & ->).
  by rewrite Hcid.
Qed.

(** The dependency map keeps, for an id, the attributes of the last [dep]
    element that has it as its [to]. *)
Lemma deps_of_last (root : Element)
    (deps : gmap string (gmap string string)) (l1 l2 : list Element)
    (d : Element) (id : string) :
  deps_of root = Ok deps →
  findall ["dependencies"; "dep"] root = l1 ++ d :: l2 →
  attrib d !! "to" = Some id →
  (∀ d', d' ∈ l2 → attrib d' !! "to" ≠ Some id) →
  deps !! id = Some (attrib d).
Proof.
  unfold deps_of. intros Hrun Hsplit Hto Hlater.
  rewrite Hsplit, foldM_app in Hrun.
  apply bind_Ok_inv in Hrun as (s1 & _ & Hrun). simpl in Hrun.
  apply bind_Ok_inv in Hrun as (s2 & Hd & Hrun).
  ok_inv Hd. injection Hd as <-.
  assert (a = id) as -> by congruence.
  revert Hrun.
  apply (foldM_invariant
           (λ (deps : gmap string (gmap string string)) (d : Element),
              to ← getitem (attrib d) "to"; Ok (<[to := attrib d]> deps))
           (λ m, m !! id = Some (attrib d))).
  - intros m1 m2 d' Hd' Hm1 Hstep. ok_inv Hstep. injection Hstep as <-.
    rewrite lookup_insert_ne; [done|]. intros ->. by apply (Hlater d').
  - apply lookup_insert_eq.
Qed.

(** X3: when several [dep] elements of a document have the same [to], the
    last one in document order decides: the HEAD and DEPREL fields of the
    row of a token are the [from] and [type] of the last [dep] element whose
    [to] is the token id. *)
Theorem X3_last_dependency_edge (roots : list Element)
    (results : list (list (list string))) (k : nat) (root frame : Element)
    (rows : list (list string)) (l1 l2 : list Element) (d : Element)
    (j : nat) (tk : Element) (id : string) (row : list string) :
  huric_xml_to_conll roots = Ok results →
  document_frames roots !! k = Some (root, frame) →
  results !! k = Some rows →
  findall ["dependencies"; "dep"] root = l1 ++ d :: l2 →
  attrib d !! "to" = Some id →
  (∀ d', d' ∈ l2 → attrib d' !! "to" ≠ Some id) →
  findall ["tokens"; "token"] root !! j = Some tk →
  attrib tk !! "id" = Some id →
  rows !! j = Some row →
  row !! 8 = attrib d !! "from" ∧ row !! 10 = attrib d !! "type".
Proof.
  intros Hrun Hk Hrows Hsplit Hto Hlater Hj Hid Hrow.
  pose proof (huric_xml_to_conll_emitted _ _ _ _ _ _ Hrun Hk Hrows) as Hem.
  assert (tokens_of root !! j = Some (attrib tk)) as Ht.
  { unfold tokens_of. by rewrite list_lookup_fmap, Hj. }
  destruct (emitted_row _ _ _ _ _ _ Hem Ht Hrow)
    as (cid & deps & fn & lus & fe & _ & Hdeps & _ & _ & _ & Hrt).
  destruct Hrt as (id' & ? & ? & ? & dep & head & deprel & ? & Hid' & _ & _ & _
                   & Hdep & Hhead & Hdeprel & _ & ->).
  assert (id' = id) as -> by congruence.
  rewrite (deps_of_last _ _ _ _ _ _ Hdeps Hsplit Hto Hlater) in Hdep.
  injection Hdep as <-. by rewrite Hhead, Hdeprel.
Qed.

Lemma elem_of_enumerate_lookup {A : Type} (l : list A) (ct : nat * A) :
  ct ∈ enumerate l → l !! ct.1 = Some ct.2.
Proof.
  unfold enumerate. intros H.
  by apply elem_of_lookup_imap in H as (i & y & -> & Hi).
Qed.

(** Every label in the label map of a frame was written for a token entry
    of one of its frame elements. *)
Lemma labels_of_provenance (frame : Element) (fe : gmap string string)
    (id lab : string) :
  labels_of frame = Ok fe → fe !! id = Some lab →
  ∃ el ty c tk,
    el ∈ findall ["frameElement"] frame ∧ attrib el !! "type" = Some ty ∧
    findall ["token"] el !! c = Some tk ∧ attrib tk !! "id" = Some id ∧
    lab = iob_prefix c (length (findall ["token"] el)) +:+ "-"
          +:+ get_fe_framenet ty.
Proof.
  unfold labels_of. intros Hrun. revert id lab.
  set (els := findall ["frameElement"] frame) in *.
  set (P := λ m : gmap string string, ∀ id lab, m !! id = Some lab →
         ∃ el ty c tk,
           el ∈ els ∧ attrib el !! "type" = Some ty ∧
           findall ["token"] el !! c = Some tk ∧ attrib tk !! "id" = Some id ∧
           lab = iob_prefix c (length (findall ["token"] el)) +:+ "-"
                 +:+ get_fe_framenet ty).
  apply (foldM_invariant label_frame_element P ∅ fe els); [|done|exact Hrun].
  intros m1 m2 el Hel Hm1 Hstep.
  apply label_frame_element_Ok in Hstep as (ty & Hty & Hstep).
  revert Hstep.
  apply (foldM_invariant
           (label_token (length (findall ["token"] el)) (get_fe_framenet ty))
           P); [|exact Hm1].
  intros s1 s2 ct Hct Hs1 Hstep id lab Hlook.
  apply label_token_Ok in Hstep as (id' & Hid' & ->).
  destruct (decide (id' = id)) as [->|Hne].
  - rewrite lookup_insert_eq in Hlook. injection Hlook as <-.
    exists el, ty, ct.1, ct.2. split_and!; try done.
    by apply elem_of_enumerate_lookup.
  - rewrite lookup_insert_ne in Hlook by done. by apply Hs1.
Qed.

(** X4: the last field of an emitted row is either O or a label written for
    a token entry of a frame element of the frame that names the id of the
    row's token: the prefix S, B or I, decided by the length of the span and
    the position of the entry, a hyphen and the remapped type of that frame
    element. No other label is ever emitted. *)
Theorem X4_label_provenance (roots : list Element)
    (results : list (list (list string))) (k : nat) (root frame : Element)
    (rows : list (list string)) (j : nat) (tk : Element) (id : string)
    (row : list string) :
  huric_xml_to_conll roots = Ok results →
  document_frames roots !! k = Some (root, frame) →
  results !! k = Some rows →
  findall ["tokens"; "token"] root !! j = Some tk →
  attrib tk !! "id" = Some id →
  rows !! j = Some row →
  row !! 14 = Some "O" ∨
  ∃ el ty c entry,
    el ∈ findall ["frameElement"] frame ∧ attrib el !! "type" = Some ty ∧
    findall ["token"] el !! c = Some entry ∧ attrib entry !! "id" = Some id ∧
    row !! 14
      = Some ((if decide (length (findall ["token"] el) = 1) then "S"
               else if decide (c = 0) then "B" else "I")
              +:+ "-" +:+ get_fe_framenet ty).
Proof.
  intros Hrun Hk Hrows Hj Hid Hrow.
  pose proof (huric_xml_to_conll_emitted _ _ _ _ _ _ Hrun Hk Hrows) as Hem.
  assert (tokens_of root !! j = Some (attrib tk)) as Ht.
  { unfold tokens_of. by rewrite list_lookup_fmap, Hj. }
  destruct (emitted_row _ _ _ _ _ _ Hem Ht Hrow)
    as (cid & deps & fn & lus & fe & _ & _ & _ & _ & Hfe & Hrt).
  destruct Hrt as (id' & ? & ? & ? & ? & ? & ? & ? & Hid' & _ & _ & _ & _ & _
                   & _ & _ & ->).
  assert (id' = id) as -> by congruence.
  simpl. unfold label_of.
  destruct (fe !! id) as [lab|] eqn:Hlab; [right|by left].
  destruct (labels_of_provenance _ _ _ _ Hfe Hlab)
    as (el & ty & c & entry & Hel & Hty & Hc & Hentry & ->).
  exists el, ty, c, entry. by split_and!.
Qed.

Lemma lus_of_elem (frame : Element) (lus : list string) (lu : Element)
    (id : string) :
  lus_of frame = Ok lus →
  lu ∈ findall ["lexicalUnit"; "token"] frame →
  attrib lu !! "id" = Some id →
  id ∈ lus.
Proof.
  unfold lus_of. intros Hlus Hlu Hid. apply comprehension_Ok in Hlus.
  apply list_elem_of_lookup in Hlu as [i Hi].
  destruct (Forall2_lookup_l _ _ _ _ _ Hlus Hi) as (id' & Hid' & Hget).
  apply getitem_Ok in Hget. assert (id' = id) as -> by congruence.
  by eapply list_elem_of_lookup_2.
Qed.

(** X5: a token that a frame of its document has in its lexical unit and
    whose part-of-speech tag has no rule makes the run raise; its row, once
    the token's attributes and its dependency edge are read, raises the
    exception of the part-of-speech rule with the tag in it. A token with
    such a tag outside every lexical unit is no obstacle. *)
Theorem X5_lexical_unit_without_rule (roots : list Element)
    (root frame lu tk : Element) (id pos : string) :
  root ∈ roots →
  frame ∈ findall ["semantics"; "frameSemantics"; "frame"] root →
  lu ∈ findall ["lexicalUnit"; "token"] frame →
  attrib lu !! "id" = Some id →
  tk ∈ findall ["tokens"; "token"] root →
  attrib tk !! "id" = Some id →
  attrib tk !! "pos" = Some pos →
  pos ∉ recognized_pos_tags →
  is_Err (huric_xml_to_conll roots) ∧
  ∀ command_id deps_by_t_id lus frame_name fe_by_t_id dep,
    is_Some (attrib tk !! "surface") → is_Some (attrib tk !! "lemma") →
    deps_by_t_id !! id = Some dep →
    is_Some (dep !! "from") → is_Some (dep !! "type") →
    (id ∈ lus →
       conll_row command_id deps_by_t_id lus frame_name fe_by_t_id (attrib tk)
       = Err (Exception ["Rule not defined for part-of-speech word"; pos])) ∧
    (id ∉ lus →
       is_Ok (conll_row command_id deps_by_t_id lus frame_name fe_by_t_id
                        (attrib tk))).
Proof.
  intros Hroot Hframe Hlu Hluid Htk Hid Hpos Hrule. split.
  - apply not_Ok_is_Err. intros results Hrun.
    apply huric_xml_to_conll_Ok in Hrun.
    pose proof (elem_of_document_frames _ _ _ Hroot Hframe) as Hrf.
    apply list_elem_of_lookup in Hrf as [k Hk].
    destruct (Forall2_lookup_l _ _ _ _ _ Hrun Hk) as (rows & _ & Hem).
    destruct Hem as (cid & deps & fn & lus & fe & _ & _ & _ & Hlus & _ & Hrows).
    assert (attrib tk ∈ tokens_of root) as Ht.
    { unfold tokens_of. apply list_elem_of_fmap. by exists tk. }
    apply list_elem_of_lookup in Ht as [j Hj].
    destruct (Forall2_lookup_l _ _ _ _ _ Hrows Hj) as (row & _ & Hrow).
    destruct Hrow as (id' & ? & ? & pos' & ? & ? & ? & ? & Hid' & _ & _ & Hpos'
                      & _ & _ & _ & Hfill & _).
    assert (id' = id) as -> by congruence.
    assert (pos' = pos) as -> by congruence.
    destruct (decide (id ∈ lus)) as [|Hout];
      [|destruct Hout; by eapply lus_of_elem].
    destruct Hfill as (rule_pos & Hok & _).
    by rewrite (get_fn_pos_by_rules_unrecognized pos Hrule) in Hok.
  - intros cid deps lus fn fe dep [surface Hsurface] [lemma Hlemma] Hdep
           [head Hhead] [deprel Hdeprel].
    unfold conll_row.
    apply getitem_Ok in Hid, Hsurface, Hlemma, Hpos, Hdep, Hhead, Hdeprel.
    rewrite Hid; simpl. rewrite Hsurface; simpl. rewrite Hlemma; simpl.
    rewrite Hpos; simpl. rewrite Hdep; simpl. rewrite Hhead; simpl.
    rewrite Hdeprel; simpl. split; intros Hin.
    + destruct (decide (id ∈ lus)); [|done].
      by rewrite (get_fn_pos_by_rules_unrecognized pos Hrule).
    + destruct (decide (id ∈ lus)); [done|]. simpl.
      destruct (defaultdict_getitem "O" fe id). by eexists.
Qed.

(** X8: the row-sets of two frames of the same document have, for every
    token, the same first twelve fields; only FILLPRED, PRED and the label
    depend on the frame. *)
Theorem X8_frames_share_columns (roots : list Element)
    (results : list (list (list string))) (k1 k2 : nat)
    (root frame1 frame2 : Element) (rows1 rows2 : list (list string))
    (j : nat) (row1 row2 : list string) :
  huric_xml_to_conll roots = Ok results →
  document_frames roots !! k1 = Some (root, frame1) →
  document_frames roots !! k2 = Some (root, frame2) →
  results !! k1 = Some rows1 →
  results !! k2 = Some rows2 →
  rows1 !! j = Some row1 →
  rows2 !! j = Some row2 →
  take 12 row1 = take 12 row2.
Proof.
  intros Hrun Hk1 Hk2 Hrows1 Hrows2 Hrow1 Hrow2.
  pose proof (huric_xml_to_conll_emitted _ _ _ _ _ _ Hrun Hk1 Hrows1) as Hem1.
  pose proof (huric_xml_to_conll_emitted _ _ _ _ _ _ Hrun Hk2 Hrows2) as Hem2.
  destruct Hem1 as (cid & deps & fn1 & lus1 & fe1 & Hcid & Hdeps & _ & _ & _ & Hall1).
  destruct Hem2 as (cid' & deps' & fn2 & lus2 & fe2 & Hcid' & Hdeps' & _ & _ & _ & Hall2).
  assert (cid' = cid) as -> by congruence.
  assert (deps' = deps) as -> by congruence.
  destruct (Forall2_lookup_r _ _ _ _ _ Hall1 Hrow1) as (t & Ht & Hrt1).
  pose proof (Forall2_lookup_lr _ _ _ _ _ _ Hall2 Ht Hrow2) as Hrt2.
  destruct Hrt1 as (id & surface & lemma & pos & dep & head & deprel & ?
                    & Hid & Hsurface & Hlemma & Hpos & Hdep & Hhead & Hdeprel
                    & _ & ->).
  destruct Hrt2 as (id' & surface' & lemma' & pos' & dep' & head' & deprel' & ?
                    & Hid' & Hsurface' & Hlemma' & Hpos' & Hdep' & Hhead'
                    & Hdeprel' & _ & ->).
  assert (id' = id) as -> by congruence.
  assert (dep' = dep) as -> by congruence.
  simpl. repeat f_equal; congruence.
Qed.

(** ** Further properties of the writer *)

(** X9: the call writes three paths and nothing else: every other path of
    the file system keeps what it had, or stays absent, whichever of the
    three files can be opened. *)
Theorem X9_other_files_untouched (open_error : string → option exn)
    (samples : list (list (list string)))
    (dataset_name mode : string) (fs : gmap string string) (path : string) :
  path ≠ conll_file_loc dataset_name mode →
  path ≠ fulltext_file_loc dataset_name →
  path ≠ sents_file_loc dataset_name →
  (write_conll_samples open_error samples dataset_name mode fs).1 !! path
  = fs !! path.
Proof.
  intros H1 H2 H3. unfold write_conll_samples.
  destruct (open_error (conll_file_loc dataset_name mode)); [done|].
  destruct (open_error (fulltext_file_loc dataset_name)); simpl;
    [by rewrite lookup_insert_ne|].
  destruct (open_error (sents_file_loc dataset_name)); simpl;
    [by rewrite !lookup_insert_ne|].
  destruct (write_sents "" samples) as [f r]. simpl.
  by rewrite !lookup_insert_ne.
Qed.

(** X10: the files are truncated when they are opened: what the three paths
    held before, for instance from an earlier call for the same dataset and
    mode, leaves no trace. Calling the writer after an earlier call is the
    same as calling it alone; calling it twice is the same as once. This
    holds whichever of the three files can be opened. *)
Theorem X10_files_overwritten (open_error : string → option exn)
    (samples0 samples : list (list (list string)))
    (dataset_name mode : string) (fs : gmap string string) :
  write_conll_samples open_error samples dataset_name mode
    (write_conll_samples open_error samples0 dataset_name mode fs).1
  = write_conll_samples open_error samples dataset_name mode fs.
Proof.
  unfold write_conll_samples.
  destruct (open_error (conll_file_loc dataset_name mode)); [done|].
  destruct (open_error (fulltext_file_loc dataset_name)); simpl.
  { f_equal. apply map_eq. intros path.
    rewrite !lookup_insert. by repeat case_decide. }
  destruct (open_error (sents_file_loc dataset_name)); simpl.
  { f_equal. apply map_eq. intros path.
    rewrite !lookup_insert. by repeat case_decide. }
  destruct (write_sents "" samples) as [f r].
  destruct (write_sents "" samples0) as [f0 r0]. simpl.
  f_equal. apply map_eq. intros path.
  rewrite !lookup_insert. by repeat case_decide.
Qed.

Lemma forms_IndexError (seq : list (list string)) :
  Exists (λ row, length row < 2) seq →
  comprehension (λ w, list_getitem w 1) seq = Err IndexError.
Proof.
  induction seq as [|row seq IH]; intros H; [by inversion H|].
  cbn [comprehension].
  assert (list_getitem row 1 = Err IndexError ∨
          ∃ form, list_getitem row 1 = Ok form ∧ 2 ≤ length row) as Hrow1.
  { unfold list_getitem. destruct (row !! 1) as [form|] eqn:Hform; [|by left].
    right. exists form. split; [done|]. apply lookup_lt_Some in Hform. lia. }
  destruct Hrow1 as [->|(form & -> & Hlen)]; [done|]. simpl.
  apply Exists_cons in H as [Hrow|Hseq]; [lia|].
  by rewrite (IH Hseq).
Qed.

Lemma write_sents_IndexError (f : string)
    (before after : list (list (list string))) (seq : list (list string)) :
  Forall (Forall (λ row, 2 ≤ length row)) before →
  Exists (λ row, length row < 2) seq →
  write_sents f (before ++ seq :: after)
  = (f +:+ lines ((λ seq, join " " (FORM <$> seq)) <$> before),
     Err IndexError).
Proof.
  intros Hbefore Hseq. revert f.
  induction Hbefore as [|seq0 before Hseq0 _ IH]; intros f; simpl.
  - by rewrite (forms_IndexError _ Hseq), str_app_nil_r.
  - rewrite (forms_Ok _ Hseq0), IH. unfold write.
    by rewrite !str_app_assoc.
Qed.

(** X11: when the three files can be opened and a row of some row-set has
    fewer than two fields, the call raises the index failure while it writes
    the third file. By then the two tab-separated files are complete, with
    all row-sets, also the offending one; the [.sents] file is left with the
    lines of the row-sets before the first offending one. *)
Theorem X11_short_row (open_error : string → option exn)
    (before after : list (list (list string)))
    (seq : list (list string)) (dataset_name mode : string)
    (fs : gmap string string) :
  open_error (conll_file_loc dataset_name mode) = None →
  open_error (fulltext_file_loc dataset_name) = None →
  open_error (sents_file_loc dataset_name) = None →
  Forall (Forall (λ row, 2 ≤ length row)) before →
  Exists (λ row, length row < 2) seq →
  (write_conll_samples open_error (before ++ seq :: after)
     dataset_name mode fs).2
    = Err IndexError ∧
  (write_conll_samples open_error (before ++ seq :: after)
     dataset_name mode fs).1
     !! sents_file_loc dataset_name
    = Some (lines ((λ seq, join " " (FORM <$> seq)) <$> before)) ∧
  (write_conll_samples open_error (before ++ seq :: after)
     dataset_name mode fs).1
     !! conll_file_loc dataset_name mode
    = Some (lines (seq ← before ++ seq :: after; (join tab <$> seq) ++ [""])) ∧
  (write_conll_samples open_error (before ++ seq :: after)
     dataset_name mode fs).1
     !! fulltext_file_loc dataset_name
    = Some (lines (seq ← before ++ seq :: after; (join tab <$> seq) ++ [""])).
Proof.
  intros Hopen1 Hopen2 Hopen3 Hbefore Hseq.
  destruct (write_conll_samples_conll open_error (before ++ seq :: after)
              dataset_name mode fs Hopen1 Hopen2) as [Hconll Hfull].
  rewrite Hconll, Hfull, write_conll_lines, str_app_nil_l.
  unfold write_conll_samples. rewrite Hopen1, Hopen2, Hopen3.
  rewrite (write_sents_IndexError _ _ _ _ Hbefore Hseq). simpl.
  by rewrite lookup_insert_eq.
Qed.

Lemma str_length_app (s1 s2 : string) :
  String.length (s1 +:+ s2) = String.length s1 + String.length s2.
Proof.
  induction s1 as [|c s1 IH]; [done|].
  rewrite str_app_cons. simpl. by rewrite IH.
Qed.

Lemma str_app_inj_r (s1 s2 t : string) : s1 +:+ t = s2 +:+ t → s1 = s2.
Proof.
  revert s2. induction s1 as [|c s1 IH]; intros [|c' s2] H.
  - done.
  - apply (f_equal String.length) in H.
    rewrite !str_length_app in H. simpl in H. lia.
  - apply (f_equal String.length) in H.
    rewrite !str_length_app in H. simpl in H. lia.
  - rewrite !str_app_cons in H. injection H as -> H. f_equal. by apply IH.
Qed.

(** X12: the mode-specific path and the fulltext.train path are the same
    path exactly when the mode is fulltext.train; the [.sents] path differs
    from both whatever the dataset and the mode. So the call leaves three
    files, or two when the mode is fulltext.train. *)
Theorem X12_paths (dataset_name mode : string) :
  (conll_file_loc dataset_name mode = fulltext_file_loc dataset_name
   ↔ mode = "fulltext.train") ∧
  sents_file_loc dataset_name ≠ conll_file_loc dataset_name mode ∧
  sents_file_loc dataset_name ≠ fulltext_file_loc dataset_name.
Proof.
  split_and!; [|apply sents_ne_conll|apply sents_ne_fulltext].
  unfold conll_file_loc, fulltext_file_loc. split.
  - intros H.
    change ".fulltext.train.syntaxnet.conll"
      with ("." +:+ "fulltext.train" +:+ ".syntaxnet.conll") in H.
    do 4 apply (inj (String.app _)) in H.
    by apply str_app_inj_r in H.
  - by intros ->.
Qed.

(** ** The converter and the writer together *)

Lemma Forall2_fmap_eq {A B C : Type} (R : A → B → Prop) (f : A → C)
    (g : B → C) (l : list A) (k : list B) :
  Forall2 R l k → (∀ x y, R x y → f x = g y) → f <$> l = g <$> k.
Proof.
  intros H Hfg. induction H as [|x y l k Hxy _ IH]; [done|].
  by rewrite !fmap_cons, (Hfg x y Hxy), IH.
Qed.

Lemma emitted_forms (root frame : Element) (rows : list (list string)) :
  emitted root frame rows →
  FORM <$> rows = surface_of <$> findall ["tokens"; "token"] root ∧
  Forall (λ row, length row = 15) rows.
Proof.
  intros (cid & deps & fn & lus & fe & _ & _ & _ & _ & _ & Hall).
  unfold tokens_of in Hall. rewrite Forall2_fmap_l in Hall. split.
  - symmetry. eapply Forall2_fmap_eq; [exact Hall|].
    intros tk row (? & surface & ? & ? & ? & ? & ? & ? & _ & Hsurface & _ & _
                   & _ & _ & _ & _ & ->).
    unfold surface_of, FORM. by rewrite Hsurface.
  - apply Forall_forall. intros row Hrow.
    apply list_elem_of_lookup in Hrow as [j Hj].
    destruct (Forall2_lookup_r _ _ _ _ _ Hall Hj) as (tk & _ & Hrt).
    by destruct Hrt as (? & ? & ? & ? & ? & ? & ? & ? & _ & _ & _ & _ & _ & _
                        & _ & _ & ->).
Qed.

(** Every row the converter returns has a FORM column. *)
Lemma huric_xml_to_conll_forms (roots : list Element)
    (results : list (list (list string))) :
  huric_xml_to_conll roots = Ok results →
  Forall (Forall (λ row, 2 ≤ length row)) results.
Proof.
  intros Hrun. apply huric_xml_to_conll_Ok in Hrun.
  apply Forall_forall. intros rows Hrows.
  apply list_elem_of_lookup in Hrows as [k Hk].
  destruct (Forall2_lookup_r _ _ _ _ _ Hrun Hk) as ([root frame] & _ & Hem).
  apply emitted_forms in Hem as [_ Hlen].
  eapply Forall_impl; [exact Hlen|]. intros row ->. lia.
Qed.

Lemma write_conll_samples_Ok (open_error : string → option exn)
    (samples : list (list (list string)))
    (dataset_name mode : string) (fs : gmap string string) :
  open_error (conll_file_loc dataset_name mode) = None →
  open_error (fulltext_file_loc dataset_name) = None →
  open_error (sents_file_loc dataset_name) = None →
  Forall (Forall (λ row, 2 ≤ length row)) samples →
  write_conll_samples open_error samples dataset_name mode fs
  = (<[sents_file_loc dataset_name
         := lines ((λ seq, join " " (FORM <$> seq)) <$> samples)]>
       (<[fulltext_file_loc dataset_name := write_conll "" samples]>
          (<[conll_file_loc dataset_name mode := write_conll "" samples]> fs)),
     Ok ()).
Proof.
  intros Hopen1 Hopen2 Hopen3 Hforms. unfold write_conll_samples.
  by rewrite Hopen1, Hopen2, Hopen3, (write_sents_lines _ _ Hforms),
             str_app_nil_l.
Qed.

(** X13: on what the converter returns the writer raises no index failure:
    when the three files can be opened it returns normally, and the
    [.sents] file then holds one line per frame, not per document: for each
    document, once for each of its frames, the surface forms of its tokens
    joined by spaces. *)
Theorem X13_sentences_written (open_error : string → option exn)
    (roots : list Element)
    (results : list (list (list string))) (dataset_name mode : string)
    (fs : gmap string string) :
  open_error (conll_file_loc dataset_name mode) = None →
  open_error (fulltext_file_loc dataset_name) = None →
  open_error (sents_file_loc dataset_name) = None →
  huric_xml_to_conll roots = Ok results →
  (write_conll_samples open_error results dataset_name mode fs).2 = Ok () ∧
  (write_conll_samples open_error results dataset_name mode fs).1
     !! sents_file_loc dataset_name
    = Some (lines ((λ rf, sentence_of rf.1) <$> document_frames roots)).
Proof.
  intros Hopen1 Hopen2 Hopen3 Hrun.
  rewrite (write_conll_samples_Ok _ _ _ _ _ Hopen1 Hopen2 Hopen3
             (huric_xml_to_conll_forms _ _ Hrun)).
  simpl. split; [done|]. rewrite lookup_insert_eq. do 2 f_equal.
  apply huric_xml_to_conll_Ok in Hrun. symmetry.
  eapply Forall2_fmap_eq; [exact Hrun|].
  intros [root frame] rows Hem. simpl in *.
  apply emitted_forms in Hem as [Hforms _].
  unfold sentence_of. by rewrite Hforms.
Qed.

(** ** The batch driver *)

Section driver.
Context (parse : string → result Element) (loc : string → string).

Lemma driver_loop_parsed (names : list string) (roots : list Element)
    (acc : list (list (list string))) :
  Forall2 (λ name root, parse (loc name) = Ok root) names roots →
  foldM (λ results name, root ← parse (loc name); convert_document results root)
        acc names
  = foldM convert_document acc roots.
Proof.
  intros H. revert acc.
  induction H as [|name root names roots Hroot _ IH]; intros acc; [done|].
  simpl. rewrite Hroot. simpl.
  destruct (convert_document acc root); simpl; [apply IH|done].
Qed.

Lemma driver_loop_Ok (names : list string)
    (acc results : list (list (list string))) :
  foldM (λ results name, root ← parse (loc name); convert_document results root)
        acc names = Ok results →
  ∃ roots, Forall2 (λ name root, parse (loc name) = Ok root) names roots ∧
           foldM convert_document acc roots = Ok results.
Proof.
  revert acc. induction names as [|name names IH]; intros acc H; simpl in H.
  - exists []. by split.
  - apply bind_Ok_inv in H as (acc1 & Hstep & H).
    apply bind_Ok_inv in Hstep as (root & Hroot & Hstep).
    apply IH in H as (roots & Hroots & H).
    exists (root :: roots). split; [by constructor|].
    simpl. by rewrite Hstep.
Qed.
End driver.

Lemma sorted_names_unique (names1 names2 : list string) :
  names1 ≡ₚ names2 →
  merge_sort String.le names1 = merge_sort String.le names2.
Proof.
  intros Hperm. apply (Sorted_unique String.le).
  - apply Sorted_merge_sort, _.
  - apply Sorted_merge_sort, _.
  - by rewrite !merge_sort_Permutation.
Qed.

(** X14: the result of the driver does not depend on the order in which the
    directory listing returns the file names: two listings that are
    permutations of each other give the same row-sets, or the same
    exception. *)
Theorem X14_listing_order (listdir1 listdir2 : string → list string)
    (parse : string → result Element) (dataset_name : string) :
  listdir1 (PATH_DATASETS +:+ "/" +:+ dataset_name)
    ≡ₚ listdir2 (PATH_DATASETS +:+ "/" +:+ dataset_name) →
  huric_xml_to_conll_dir listdir1 parse dataset_name
  = huric_xml_to_conll_dir listdir2 parse dataset_name.
Proof.
  intros Hperm. unfold huric_xml_to_conll_dir.
  by rewrite (sorted_names_unique _ _ Hperm).
Qed.

(** X15: when every file of the directory parses, the driver returns what
    the conversion of the parsed roots returns, the roots taken in the
    sorted order of the file names. *)
Theorem X15_driver_converts_sorted (listdir : string → list string)
    (parse : string → result Element) (dataset_name : string)
    (roots : list Element) :
  Forall2 (λ file_name root,
             parse ((PATH_DATASETS +:+ "/" +:+ dataset_name) +:+ "/"
                    +:+ file_name) = Ok root)
          (merge_sort String.le
             (listdir (PATH_DATASETS +:+ "/" +:+ dataset_name)))
          roots →
  huric_xml_to_conll_dir listdir parse dataset_name
  = huric_xml_to_conll roots.
Proof.
  intros H. unfold huric_xml_to_conll_dir, huric_xml_to_conll.
  by apply (driver_loop_parsed parse
              (λ n, (PATH_DATASETS +:+ "/" +:+ dataset_name) +:+ "/" +:+ n)).
Qed.

(** X16: a file that cannot be opened or parsed aborts the batch with its
    exception, provided the files before it in sorted order parsed and
    converted; the files after it are not looked at, and the row-sets of
    the files before it are lost. *)
Theorem X16_unparsable_file (listdir : string → list string)
    (parse : string → result Element) (dataset_name : string)
    (before after : list string) (file_name : string)
    (roots : list Element) (e : exn) :
  merge_sort String.le (listdir (PATH_DATASETS +:+ "/" +:+ dataset_name))
    = before ++ file_name :: after →
  Forall2 (λ file_name root,
             parse ((PATH_DATASETS +:+ "/" +:+ dataset_name) +:+ "/"
                    +:+ file_name) = Ok root)
          before roots →
  is_Ok (huric_xml_to_conll roots) →
  parse ((PATH_DATASETS +:+ "/" +:+ dataset_name) +:+ "/" +:+ file_name)
    = Err e →
  huric_xml_to_conll_dir listdir parse dataset_name = Err e.
Proof.
  intros Hsorted Hbefore [results Hresults] Hfile.
  unfold huric_xml_to_conll_dir. rewrite Hsorted, foldM_app.
  rewrite (driver_loop_parsed parse
             (λ n, (PATH_DATASETS +:+ "/" +:+ dataset_name) +:+ "/" +:+ n)
             _ _ _ Hbefore).
  unfold huric_xml_to_conll in Hresults. rewrite Hresults. simpl.
  by rewrite Hfile.
Qed.

(** ** The entry point *)

Lemma huric_xml_to_conll_dir_forms (listdir : string → list string)
    (parse : string → result Element) (dataset_name : string)
    (samples : list (list (list string))) :
  huric_xml_to_conll_dir listdir parse dataset_name = Ok samples →
  Forall (Forall (λ row, 2 ≤ length row)) samples.
Proof.
  unfold huric_xml_to_conll_dir. intros H.
  apply driver_loop_Ok in H as (roots & _ & H).
  by apply (huric_xml_to_conll_forms roots).
Qed.

(** Decide the lookups of literal paths in a file system built by inserts. *)
Ltac literal_paths :=
  rewrite ?lookup_insert; repeat case_decide;
  first
    [ done
    | exfalso;
      match goal with
      | H : @eq string _ _ |- _ => vm_compute in H; discriminate H
      | H : ¬ (@eq string _ _) |- _ => apply H; reflexivity
      end ].

(** X17: when both datasets convert and the six output files can be opened,
    [main] returns normally and leaves six files: for framenet_subset the
    dev file, for huric_modern the test file, and for each the
    fulltext.train file with the same content and the [.sents] file; no
    other path is written. *)
Theorem X17_main_files (listdir : string → list string)
    (parse : string → result Element) (open_error : string → option exn)
    (fs : gmap string string)
    (samples1 samples2 : list (list (list string))) :
  (∀ path,
     path ∈ ["data/neural/framenet_subset/framenet_subset.dev.syntaxnet.conll";
             "data/neural/framenet_subset/framenet_subset.fulltext.train.syntaxnet.conll";
             "data/neural/framenet_subset/framenet_subset.fulltext.train.syntaxnet.conll.sents";
             "data/neural/huric_modern/huric_modern.test.syntaxnet.conll";
             "data/neural/huric_modern/huric_modern.fulltext.train.syntaxnet.conll";
             "data/neural/huric_modern/huric_modern.fulltext.train.syntaxnet.conll.sents"] →
     open_error path = None) →
  huric_xml_to_conll_dir listdir parse "framenet_subset" = Ok samples1 →
  huric_xml_to_conll_dir listdir parse "huric_modern" = Ok samples2 →
  (main listdir parse open_error fs).2 = Ok () ∧
  (main listdir parse open_error fs).1
     !! "data/neural/framenet_subset/framenet_subset.dev.syntaxnet.conll"
    = Some (write_conll "" samples1) ∧
  (main listdir parse open_error fs).1
     !! "data/neural/framenet_subset/framenet_subset.fulltext.train.syntaxnet.conll"
    = Some (write_conll "" samples1) ∧
  (main listdir parse open_error fs).1
     !! "data/neural/framenet_subset/framenet_subset.fulltext.train.syntaxnet.conll.sents"
    = Some (lines ((λ seq, join " " (FORM <$> seq)) <$> samples1)) ∧
  (main listdir parse open_error fs).1
     !! "data/neural/huric_modern/huric_modern.test.syntaxnet.conll"
    = Some (write_conll "" samples2) ∧
  (main listdir parse open_error fs).1
     !! "data/neural/huric_modern/huric_modern.fulltext.train.syntaxnet.conll"
    = Some (write_conll "" samples2) ∧
  (main listdir parse open_error fs).1
     !! "data/neural/huric_modern/huric_modern.fulltext.train.syntaxnet.conll.sents"
    = Some (lines ((λ seq, join " " (FORM <$> seq)) <$> samples2)) ∧
  ∀ path,
    path ∉ ["data/neural/framenet_subset/framenet_subset.dev.syntaxnet.conll";
            "data/neural/framenet_subset/framenet_subset.fulltext.train.syntaxnet.conll";
            "data/neural/framenet_subset/framenet_subset.fulltext.train.syntaxnet.conll.sents";
            "data/neural/huric_modern/huric_modern.test.syntaxnet.conll";
            "data/neural/huric_modern/huric_modern.fulltext.train.syntaxnet.conll";
            "data/neural/huric_modern/huric_modern.fulltext.train.syntaxnet.conll.sents"] →
    (main listdir parse open_error fs).1 !! path = fs !! path.
Proof.
  intros Hopen H1 H2.
  pose proof (huric_xml_to_conll_dir_forms _ _ _ _ H1) as Hforms1.
  pose proof (huric_xml_to_conll_dir_forms _ _ _ _ H2) as Hforms2.
  assert (open_error (conll_file_loc "framenet_subset" "dev") = None) as O1
    by (apply Hopen, (bool_decide_unpack _); by vm_compute).
  assert (open_error (fulltext_file_loc "framenet_subset") = None) as O2
    by (apply Hopen, (bool_decide_unpack _); by vm_compute).
  assert (open_error (sents_file_loc "framenet_subset") = None) as O3
    by (apply Hopen, (bool_decide_unpack _); by vm_compute).
  assert (open_error (conll_file_loc "huric_modern" "test") = None) as O4
    by (apply Hopen, (bool_decide_unpack _); by vm_compute).
  assert (open_error (fulltext_file_loc "huric_modern") = None) as O5
    by (apply Hopen, (bool_decide_unpack _); by vm_compute).
  assert (open_error (sents_file_loc "huric_modern") = None) as O6
    by (apply Hopen, (bool_decide_unpack _); by vm_compute).
  unfold main.
  rewrite H1, (write_conll_samples_Ok _ _ _ _ _ O1 O2 O3 Hforms1).
  rewrite H2, (write_conll_samples_Ok _ _ _ _ _ O4 O5 O6 Hforms2).
  clear H1 H2 Hforms1 Hforms2 Hopen O1 O2 O3 O4 O5 O6. cbn [fst snd].
  split_and!; [done|literal_paths..|].
  intros path Hpath. repeat (apply not_elem_of_cons in Hpath as [? Hpath]).
  by rewrite !lookup_insert_ne.
Qed.

(** X18: [main] catches no exception. When the first dataset raises,
    nothing is written. When the first dataset converts and its dev file
    cannot be opened, as when the output directory is missing, [main] raises
    the exception of that [open], nothing is written and the second dataset
    is not read. When the first dataset converts, its three files can be
    opened and the second dataset raises, [main] raises after it has written
    the three files of the first dataset in full, and it has written no
    other path: no file of the second dataset is created or changed. *)
Theorem X18_main_aborts (listdir : string → list string)
    (parse : string → result Element) (open_error : string → option exn)
    (fs : gmap string string) (e : exn) :
  (huric_xml_to_conll_dir listdir parse "framenet_subset" = Err e →
   main listdir parse open_error fs = (fs, Err e)) ∧
  (is_Ok (huric_xml_to_conll_dir listdir parse "framenet_subset") →
   open_error
     "data/neural/framenet_subset/framenet_subset.dev.syntaxnet.conll"
     = Some e →
   main listdir parse open_error fs = (fs, Err e)) ∧
  (∀ samples1,
     huric_xml_to_conll_dir listdir parse "framenet_subset" = Ok samples1 →
     (∀ path,
        path ∈ ["data/neural/framenet_subset/framenet_subset.dev.syntaxnet.conll";
                "data/neural/framenet_subset/framenet_subset.fulltext.train.syntaxnet.conll";
                "data/neural/framenet_subset/framenet_subset.fulltext.train.syntaxnet.conll.sents"] →
        open_error path = None) →
     huric_xml_to_conll_dir listdir parse "huric_modern" = Err e →
     (main listdir parse open_error fs).2 = Err e ∧
     (main listdir parse open_error fs).1
        !! "data/neural/framenet_subset/framenet_subset.dev.syntaxnet.conll"
       = Some (write_conll "" samples1) ∧
     (main listdir parse open_error fs).1
        !! "data/neural/framenet_subset/framenet_subset.fulltext.train.syntaxnet.conll"
       = Some (write_conll "" samples1) ∧
     (main listdir parse open_error fs).1
        !! "data/neural/framenet_subset/framenet_subset.fulltext.train.syntaxnet.conll.sents"
       = Some (lines ((λ seq, join " " (FORM <$> seq)) <$> samples1)) ∧
     ∀ path,
       path ∉ ["data/neural/framenet_subset/framenet_subset.dev.syntaxnet.conll";
               "data/neural/framenet_subset/framenet_subset.fulltext.train.syntaxnet.conll";
               "data/neural/framenet_subset/framenet_subset.fulltext.train.syntaxnet.conll.sents"] →
       (main listdir parse open_error fs).1 !! path = fs !! path).
Proof.
  split_and!.
  - intros H. unfold main. by rewrite H.
  - intros [samples1 H1] Hopen. unfold main, write_conll_samples.
    rewrite H1.
    change (conll_file_loc "framenet_subset" "dev")
      with "data/neural/framenet_subset/framenet_subset.dev.syntaxnet.conll".
    by rewrite Hopen.
  - intros samples1 H1 Hopen H2.
    pose proof (huric_xml_to_conll_dir_forms _ _ _ _ H1) as Hforms1.
    assert (open_error (conll_file_loc "framenet_subset" "dev") = None) as O1
      by (apply Hopen, (bool_decide_unpack _); by vm_compute).
    assert (open_error (fulltext_file_loc "framenet_subset") = None) as O2
      by (apply Hopen, (bool_decide_unpack _); by vm_compute).
    assert (open_error (sents_file_loc "framenet_subset") = None) as O3
      by (apply Hopen, (bool_decide_unpack _); by vm_compute).
    unfold main.
    rewrite H1, (write_conll_samples_Ok _ _ _ _ _ O1 O2 O3 Hforms1), H2.
    clear H1 H2 Hforms1 Hopen O1 O2 O3. cbn [fst snd].
    split_and!; [done|literal_paths..|].
    intros path Hpath. repeat (apply not_elem_of_cons in Hpath as [? Hpath]).
    by rewrite !lookup_insert_ne.
Qed.

(** X21: the writer creates no directory and catches nothing, so a file
    that cannot be opened ends the call with the exception of its [open].
    When it is the mode-specific file, nothing is written at all; when it
    is the fulltext.train file, only the mode-specific file has been
    written, in full; when it is the [.sents] file, the two tab-separated
    files have been written in full and nothing else. *)
Theorem X21_open_failure (open_error : string → option exn)
    (samples : list (list (list string))) (dataset_name mode : string)
    (fs : gmap string string) (e : exn) :
  (open_error (conll_file_loc dataset_name mode) = Some e →
   write_conll_samples open_error samples dataset_name mode fs
   = (fs, Err e)) ∧
  (open_error (conll_file_loc dataset_name mode) = None →
   open_error (fulltext_file_loc dataset_name) = Some e →
   write_conll_samples open_error samples dataset_name mode fs
   = (<[conll_file_loc dataset_name mode := write_conll "" samples]> fs,
      Err e)) ∧
  (open_error (conll_file_loc dataset_name mode) = None →
   open_error (fulltext_file_loc dataset_name) = None →
   open_error (sents_file_loc dataset_name) = Some e →
   write_conll_samples open_error samples dataset_name mode fs
   = (<[fulltext_file_loc dataset_name := write_conll "" samples]>
        (<[conll_file_loc dataset_name mode := write_conll "" samples]> fs),
      Err e) ∧
   (write_conll_samples open_error samples dataset_name mode fs).1
      !! sents_file_loc dataset_name
   = fs !! sents_file_loc dataset_name).
Proof.
  unfold write_conll_samples. split_and!.
  - by intros ->.
  - by intros -> ->.
  - intros -> -> ->. split; [done|]. simpl.
    rewrite lookup_insert_ne
      by (intros H; by apply (sents_ne_fulltext dataset_name)).
    by rewrite lookup_insert_ne
      by (intros H; by apply (sents_ne_conll dataset_name mode)).
Qed.

Lemma X21_open_failure_witness :
  write_conll_samples Cases.no_directory [Samples.bring_rows]
    "huric_modern" "test" ∅
  = (∅, Err (OSError ["No such file or directory";
                      "data/neural/huric_modern/huric_modern.test.syntaxnet.conll"])).
Proof.
  refine (proj1 (X21_open_failure Cases.no_directory [Samples.bring_rows]
                   "huric_modern" "test" ∅ _) _).
  reflexivity.
Defined.

(** ** The name tables, once more *)

(** X19: each of the three remapping functions changes a name exactly when
    the name is a key of its table, and never returns a key of its table:
    what comes out needs no further remapping. *)
Theorem X19_remapping_range (name : string) :
  (get_fn_frame_name name ≠ name ↔
     name ∈ ["Entering"; "Following"; "Searching"]) ∧
  (get_fn_frame_name name ∉ ["Entering"; "Following"; "Searching"]) ∧
  (get_lu_lemma name ≠ name ↔
     name ∈ ["halfcarri"; "positioning"; "reconnoiter"; "half-l"; "be";
             "there"; "along"; "let"; "up"]) ∧
  (get_lu_lemma name ∉ ["halfcarri"; "positioning"; "reconnoiter"; "half-l";
                        "be"; "there"; "along"; "let"; "up"]) ∧
  (get_fe_framenet name ≠ name ↔ name ∈ ["Desired_state"; "Reencoding"]) ∧
  (get_fe_framenet name ∉ ["Desired_state"; "Reencoding"]).
Proof.
  split_and!.
  - destruct (decide (name ∈ frame_name_keys)) as [H|H].
    + split; [done|]. intros _. unfold frame_name_keys in H.
      literal_cases H; by vm_compute.
    + rewrite (get_fn_frame_name_absent name H). by split.
  - destruct (decide (name ∈ frame_name_keys)) as [H|H].
    + unfold frame_name_keys in H.
      literal_cases H; apply (bool_decide_unpack _); by vm_compute.
    + by rewrite (get_fn_frame_name_absent name H).
  - destruct (decide (name ∈ lu_lemma_keys)) as [H|H].
    + split; [done|]. intros _. unfold lu_lemma_keys in H.
      literal_cases H; by vm_compute.
    + rewrite (get_lu_lemma_absent name H). by split.
  - destruct (decide (name ∈ lu_lemma_keys)) as [H|H].
    + unfold lu_lemma_keys in H.
      literal_cases H; apply (bool_decide_unpack _); by vm_compute.
    + by rewrite (get_lu_lemma_absent name H).
  - destruct (decide (name ∈ fe_keys)) as [H|H].
    + split; [done|]. intros _. unfold fe_keys in H.
      literal_cases H; by vm_compute.
    + rewrite (get_fe_framenet_absent name H). by split.
  - destruct (decide (name ∈ fe_keys)) as [H|H].
    + unfold fe_keys in H.
      literal_cases H; apply (bool_decide_unpack _); by vm_compute.
    + by rewrite (get_fe_framenet_absent name H).
Qed.

(** ** Instances on the sample documents *)

Lemma there_command_well_formed : well_formed_document Samples.there_command.
Proof.
  split_and!.
  - exists "11". by vm_compute.
  - apply Forall_forall, (bool_decide_unpack _). by vm_compute.
  - intros frame Hframe.
    change (findall ["semantics"; "frameSemantics"; "frame"]
                    Samples.there_command)
      with [Samples.there_frame] in Hframe.
    literal_cases Hframe. split_and!.
    + exists "Motion". by vm_compute.
    + apply Forall_forall, (bool_decide_unpack _). by vm_compute.
    + intros el Hel.
      change (findall ["frameElement"] Samples.there_frame)
        with [Samples.frame_element_elem "Goal" ["3"]] in Hel.
      literal_cases Hel. split; [exists "Goal"; by vm_compute|].
      apply Forall_forall, (bool_decide_unpack _). by vm_compute.
  - intros tk Htk.
    change (findall ["tokens"; "token"] Samples.there_command)
      with [Samples.token_elem "7" "go" "go" "VB";
            Samples.token_elem "3" "there" "there" "EX"] in Htk.
    literal_cases Htk.
    + exists "7", "VB". split_and!; try (by vm_compute); try (by eexists).
      * exists (Samples.dep_elem "0" "7" "root").
        split; [apply list_elem_of_lookup; by exists 0|by vm_compute].
      * intros _ _ _ _ _. apply (bool_decide_unpack _). by vm_compute.
    + exists "3", "EX". split_and!; try (by vm_compute); try (by eexists).
      * exists (Samples.dep_elem "7" "3" "advmod").
        split; [apply list_elem_of_lookup; by exists 1|by vm_compute].
      * intros _ _ _ _ _. apply (bool_decide_unpack _). by vm_compute.
Qed.

Lemma huric_xml_to_conll_total_witness :
  is_Ok (huric_xml_to_conll [Samples.there_command]).
Proof.
  apply huric_xml_to_conll_total.
  constructor; [apply there_command_well_formed|constructor].
Defined.

Lemma X2_row_shape_witness :
  length Samples.living_row = 15 ∧
  Samples.living_row !! 3 = Samples.living_row !! 2 ∧
  Samples.living_row !! 5 = Samples.living_row !! 4 ∧
  Samples.living_row !! 9 = Samples.living_row !! 8 ∧
  Samples.living_row !! 11 = Samples.living_row !! 10 ∧
  Samples.living_row !! 6 = attrib Samples.book_command !! "id" ∧
  Samples.living_row !! 7 = Some "_".
Proof.
  apply (X2_row_shape [Samples.book_command] [Samples.book_rows] 0
           Samples.book_command Samples.bringing_frame Samples.book_rows).
  - by vm_compute.
  - reflexivity.
  - reflexivity.
  - apply list_elem_of_lookup. by exists 5.
Defined.

Lemma X3_last_dependency_edge_witness :
  Cases.two_heads_there_row !! 8
    = attrib (Samples.dep_elem "0" "3" "dep") !! "from" ∧
  Cases.two_heads_there_row !! 10
    = attrib (Samples.dep_elem "0" "3" "dep") !! "type".
Proof.
  apply (X3_last_dependency_edge
           [Cases.two_heads_command] [Cases.two_heads_rows] 0
           Cases.two_heads_command Samples.there_frame Cases.two_heads_rows
           [Samples.dep_elem "0" "7" "root"; Samples.dep_elem "7" "3" "advmod"]
           [] (Samples.dep_elem "0" "3" "dep")
           1 (Samples.token_elem "3" "there" "there" "EX") "3").
  - by vm_compute.
  - reflexivity.
  - reflexivity.
  - reflexivity.
  - by vm_compute.
  - intros d' Hd'. by inversion Hd'.
  - reflexivity.
  - by vm_compute.
  - reflexivity.
Defined.

Lemma X4_label_provenance_witness :
  Samples.living_row !! 14 = Some "O" ∨
  ∃ el ty c entry,
    el ∈ findall ["frameElement"] Samples.bringing_frame ∧
    attrib el !! "type" = Some ty ∧
    findall ["token"] el !! c = Some entry ∧
    attrib entry !! "id" = Some "6" ∧
    Samples.living_row !! 14
      = Some ((if decide (length (findall ["token"] el) = 1) then "S"
               else if decide (c = 0) then "B" else "I")
              +:+ "-" +:+ get_fe_framenet ty).
Proof.
  apply (X4_label_provenance
           [Samples.book_command] [Samples.book_rows] 0 Samples.book_command
           Samples.bringing_frame Samples.book_rows
           5 (Samples.token_elem "6" "living" "living" "NN")).
  - by vm_compute.
  - reflexivity.
  - reflexivity.
  - reflexivity.
  - by vm_compute.
  - reflexivity.
Defined.

Lemma X5_lexical_unit_without_rule_witness :
  is_Err (huric_xml_to_conll [Cases.determiner_command]).
Proof.
  refine (proj1 (X5_lexical_unit_without_rule
                   [Cases.determiner_command] Cases.determiner_command
                   Cases.entity_frame (Samples.token_ref "1")
                   (Samples.token_elem "1" "the" "the" "DT") "1" "DT"
                   _ _ _ _ _ _ _ _)).
  - by left.
  - apply list_elem_of_lookup. by exists 0.
  - apply list_elem_of_lookup. by exists 0.
  - by vm_compute.
  - apply list_elem_of_lookup. by exists 0.
  - by vm_compute.
  - by vm_compute.
  - apply (bool_decide_unpack _). by vm_compute.
Defined.

Lemma X6_document_without_frame_witness :
  huric_xml_to_conll
    ([Samples.there_command] ++ Cases.frameless_command
       :: [Samples.book_command])
  = huric_xml_to_conll ([Samples.there_command] ++ [Samples.book_command]).
Proof.
  apply X6_document_without_frame.
  - reflexivity.
  - exists "2311". by vm_compute.
  - intros d Hd. by inversion Hd.
Defined.

Lemma X8_frames_share_columns_witness :
  take 12 Cases.motion_there_row = take 12 Cases.entering_there_row.
Proof.
  apply (X8_frames_share_columns
           [Cases.two_frames_command] [Cases.motion_rows; Cases.entering_rows]
           0 1 Cases.two_frames_command Samples.there_frame
           Cases.entering_frame Cases.motion_rows Cases.entering_rows 1).
  - by vm_compute.
  - reflexivity.
  - reflexivity.
  - reflexivity.
  - reflexivity.
  - reflexivity.
  - reflexivity.
Defined.

Lemma X9_other_files_untouched_witness :
  (write_conll_samples Cases.every_open [Samples.bring_rows]
     "huric_modern" "test"
     (<["data/neural/huric_modern/notes.txt" := "keep"]> ∅)).1
    !! "data/neural/huric_modern/notes.txt"
  = (<["data/neural/huric_modern/notes.txt" := "keep"]> ∅
      : gmap string string) !! "data/neural/huric_modern/notes.txt".
Proof.
  apply X9_other_files_untouched.
  - intros H. vm_compute in H. discriminate H.
  - intros H. vm_compute in H. discriminate H.
  - intros H. vm_compute in H. discriminate H.
Defined.

Lemma X11_short_row_witness :
  (write_conll_samples Cases.every_open
     ([Samples.bring_rows] ++ [["1"]] :: []) "huric_modern" "test" ∅).2 = Err IndexError ∧
  (write_conll_samples Cases.every_open
     ([Samples.bring_rows] ++ [["1"]] :: []) "huric_modern" "test" ∅).1
     !! sents_file_loc "huric_modern"
    = Some ("bring me the book" +:+ newline).
Proof.
  destruct (X11_short_row Cases.every_open [Samples.bring_rows] [] [["1"]]
              "huric_modern" "test" ∅ eq_refl eq_refl eq_refl)
    as (Hraise & Hsents & _).
  - repeat constructor.
  - constructor. simpl. lia.
  - split; [exact Hraise|exact Hsents].
Defined.

Lemma X13_sentences_written_witness :
  (write_conll_samples Cases.every_open [Samples.there_rows]
     "huric_modern" "test" ∅).2
    = Ok () ∧
  (write_conll_samples Cases.every_open [Samples.there_rows]
     "huric_modern" "test" ∅).1
     !! sents_file_loc "huric_modern"
    = Some (lines ((λ rf, sentence_of rf.1)
                     <$> document_frames [Samples.there_command])).
Proof.
  apply (X13_sentences_written Cases.every_open [Samples.there_command]).
  - reflexivity.
  - reflexivity.
  - reflexivity.
  - by vm_compute.
Defined.

Lemma X14_listing_order_witness :
  huric_xml_to_conll_dir Cases.listing_ba Cases.parse_all "huric_modern"
  = huric_xml_to_conll_dir Cases.listing_ab Cases.parse_all "huric_modern".
Proof.
  apply X14_listing_order. apply Permutation_swap.
Defined.

Lemma X15_driver_converts_sorted_witness :
  huric_xml_to_conll_dir Cases.listing_ba Cases.parse_all "huric_modern"
  = huric_xml_to_conll [Samples.bring_command; Samples.there_command].
Proof.
  apply X15_driver_converts_sorted.
  change (merge_sort String.le
            (Cases.listing_ba (PATH_DATASETS +:+ "/" +:+ "huric_modern")))
    with ["a.xml"; "b.xml"].
  repeat constructor.
Defined.

Lemma X16_unparsable_file_witness :
  huric_xml_to_conll_dir Cases.listing_ba Cases.parse_bad "huric_modern"
  = Err (Exception ["not well-formed (invalid token)"]).
Proof.
  apply (X16_unparsable_file Cases.listing_ba Cases.parse_bad "huric_modern"
           ["a.xml"] [] "b.xml" [Samples.bring_command]).
  - reflexivity.
  - repeat constructor.
  - exists [Samples.bring_rows]. by vm_compute.
  - reflexivity.
Defined.

Lemma X17_main_files_witness :
  (main Cases.listing_ba Cases.parse_all Cases.every_open ∅).2 = Ok ().
Proof.
  refine (proj1 (X17_main_files Cases.listing_ba Cases.parse_all
                   Cases.every_open ∅
                   [Samples.there_rows; Samples.book_rows]
                   [Samples.bring_rows; Samples.there_rows] _ _ _)).
  - reflexivity.
  - by vm_compute.
  - by vm_compute.
Defined.

Lemma X18_main_aborts_witness :
  (main Cases.listing_ba Cases.parse_bad Cases.every_open ∅).2
    = Err (Exception ["not well-formed (invalid token)"]) ∧
  (main Cases.listing_ba Cases.parse_bad Cases.every_open ∅).1
     !! "data/neural/huric_modern/huric_modern.test.syntaxnet.conll" = None.
Proof.
  destruct (X18_main_aborts Cases.listing_ba Cases.parse_bad Cases.every_open
              ∅ (Exception ["not well-formed (invalid token)"]))
    as (_ & _ & H).
  destruct (H [Samples.there_rows; Samples.book_rows])
    as (Hraise & _ & _ & _ & Hother).
  - by vm_compute.
  - reflexivity.
  - by vm_compute.
  - split; [exact Hraise|]. rewrite Hother; [reflexivity|].
    apply (bool_decide_unpack _). by vm_compute.
Defined.

(** ** The tab-separated file can be read back *)

Lemma has_char_app (c : ascii) (s1 s2 : string) :
  has_char c (s1 +:+ s2) = has_char c s1 || has_char c s2.
Proof.
  induction s1 as [|a s1 IH]; [done|].
  rewrite str_app_cons. simpl. by destruct (decide (a = c)).
Qed.

Lemma split_on_free (c : ascii) (s : string) :
  has_char c s = false → split_on c s = [s].
Proof.
  induction s as [|a s IH]; [done|]. simpl.
  destruct (decide (a = c)); [done|]. intros H. by rewrite (IH H).
Qed.

Lemma split_on_app (c : ascii) (s rest : string) :
  has_char c s = false →
  split_on c (s +:+ String c rest) = s :: split_on c rest.
Proof.
  induction s as [|a s IH]; intros H.
  - rewrite str_app_nil_l. simpl. by rewrite decide_True.
  - simpl in H. destruct (decide (a = c)) as [|Hne]; [done|].
    rewrite str_app_cons. simpl. rewrite decide_False by done.
    by rewrite (IH H).
Qed.

Lemma join_cons_cons (sep x y : string) (l : list string) :
  join sep (x :: y :: l) = x +:+ sep +:+ join sep (y :: l).
Proof. reflexivity. Qed.

Lemma split_on_join (c : ascii) (row : list string) :
  row ≠ [] → Forall (λ s, has_char c s = false) row →
  split_on c (join (String c "") row) = row.
Proof.
  intros Hne Hrow. induction Hrow as [|x row Hx Hrow IH]; [done|].
  destruct row as [|y row].
  - by apply split_on_free.
  - rewrite join_cons_cons. change (String c "" +:+ ?s) with (String c s).
    rewrite (split_on_app c x _ Hx). f_equal. by apply IH.
Qed.

Lemma has_char_join (c : ascii) (sep : string) (row : list string) :
  has_char c sep = false → Forall (λ s, has_char c s = false) row →
  has_char c (join sep row) = false.
Proof.
  intros Hsep Hrow. induction Hrow as [|x row Hx Hrow IH]; [done|].
  destruct row as [|y row]; [done|].
  by rewrite join_cons_cons, !has_char_app, Hx, Hsep, IH.
Qed.

Lemma split_on_lines (ls : list string) :
  Forall (λ l, has_char "010"%char l = false) ls →
  split_on "010"%char (lines ls) = ls ++ [""].
Proof.
  induction 1 as [|l ls Hl _ IH]; [done|].
  simpl. change (newline +:+ ?s) with (String "010"%char s).
  by rewrite (split_on_app _ l _ Hl), IH.
Qed.

Lemma blocks_block (block rest : list string) :
  Forall (λ l, l ≠ "") block →
  blocks (block ++ "" :: rest) = block :: blocks rest.
Proof.
  induction 1 as [|l block Hl _ IH]; [done|].
  simpl. rewrite decide_False by done. by rewrite IH.
Qed.

Lemma blocks_bind (groups : list (list string)) :
  Forall (Forall (λ l, l ≠ "")) groups →
  blocks (group ← groups; group ++ [""]) = groups.
Proof.
  induction 1 as [|group groups Hgroup _ IH]; [done|].
  rewrite bind_cons, <- app_assoc. simpl.
  by rewrite (blocks_block _ _ Hgroup), IH.
Qed.

Lemma join_tab_nonempty (row : list string) :
  2 ≤ length row → join tab row ≠ "".
Proof.
  destruct row as [|x [|y row]]; intros Hlen; [simpl in Hlen; lia..|].
  rewrite join_cons_cons. intros H.
  apply (f_equal (has_char "009"%char)) in H.
  rewrite !has_char_app in H. simpl in H.
  by rewrite orb_true_r in H.
Qed.

Lemma bind_fmap_l {A B C : Type} (f : A → B) (g : B → list C) (l : list A) :
  (f <$> l) ≫= g = l ≫= λ x, g (f x).
Proof.
  induction l as [|x l IH]; [done|].
  by rewrite fmap_cons, !bind_cons, IH.
Qed.

Lemma fmap_id_Forall {A : Type} (P : A → Prop) (f : A → A) (l : list A) :
  Forall P l → (∀ x, P x → f x = x) → f <$> l = l.
Proof.
  intros H Hf. induction H as [|x l Hx _ IH]; [done|].
  by rewrite fmap_cons, (Hf x Hx), IH.
Qed.

(** Reading back what the writer wrote gives the row-sets. *)
Lemma read_conll_write_conll (samples : list (list (list string))) :
  plain_samples samples → read_conll (write_conll "" samples) = samples.
Proof.
  intros Hplain. unfold read_conll.
  rewrite write_conll_lines, str_app_nil_l, split_on_lines.
  - rewrite length_app. simpl.
    replace (length (seq ← samples; (join tab <$> seq) ++ [""]) + 1 - 1)
      with (length (seq ← samples; (join tab <$> seq) ++ [""])) by lia.
    rewrite take_app_length.
    rewrite <- (bind_fmap_l (λ seq, join tab <$> seq) (λ group, group ++ [""])).
    rewrite blocks_bind.
    + rewrite <- list_fmap_compose.
      apply (fmap_id_Forall _ _ _ Hplain). intros seq Hseq. simpl.
      rewrite <- list_fmap_compose.
      apply (fmap_id_Forall _ _ _ Hseq). intros row [Hlen Hrow]. simpl.
      apply (split_on_join "009"%char).
      * intros ->. simpl in Hlen. lia.
      * eapply Forall_impl; [exact Hrow|]. by intros s [? _].
    + apply Forall_fmap. eapply Forall_impl; [exact Hplain|].
      intros seq Hseq. simpl. apply Forall_fmap.
      eapply Forall_impl; [exact Hseq|]. intros row [Hlen _]. simpl.
      by apply join_tab_nonempty.
  - apply Forall_bind. eapply Forall_impl; [exact Hplain|].
    intros seq Hseq. simpl. apply Forall_app. split; [|by repeat constructor].
    apply Forall_fmap. eapply Forall_impl; [exact Hseq|].
    intros row [_ Hrow]. simpl. apply has_char_join; [done|].
    eapply Forall_impl; [exact Hrow|]. by intros s [_ ?].
Qed.

(** X20: the tab-separated file determines the row-sets it was written
    from, as long as every row has at least two fields and no field has a
    tab or a newline in it: splitting the content at the newlines, cutting
    it at the empty lines and splitting each line at the tabs gives the
    row-sets back, so two such sequences of row-sets with the same file are
    the same. *)
Theorem X20_conll_file_read_back (samples : list (list (list string))) :
  plain_samples samples →
  read_conll (write_conll "" samples) = samples ∧
  ∀ samples', plain_samples samples' →
              write_conll "" samples' = write_conll "" samples →
              samples' = samples.
Proof.
  intros Hplain. split; [by apply read_conll_write_conll|].
  intros samples' Hplain' Hsame.
  rewrite <- (read_conll_write_conll samples Hplain).
  rewrite <- (read_conll_write_conll samples' Hplain').
  by rewrite Hsame.
Qed.

Lemma X20_conll_file_read_back_witness :
  read_conll (write_conll "" [Samples.bring_rows; Samples.there_rows])
  = [Samples.bring_rows; Samples.there_rows].
Proof.
  refine (proj1 (X20_conll_file_read_back
                   [Samples.bring_rows; Samples.there_rows] _)).
  repeat (constructor; try (simpl; lia); try reflexivity).
Defined.
